(** * replay-web: the browser platform of the Replay game engine

    A shallow embedding of [packages/replay-web/src/index.ts]: the closure
    variables of [renderCanvas] become one [State] record, every inner
    function ([handlePageVisible], [updateDeviceSize], [newWebFrame],
    [cleanup], the pointer closures, [mutResolution.set]) becomes a state
    transformer, and every call into a collaborator ([runNextFrame],
    [requestAnimationFrame], the input handlers of [./input], the audio
    context, [draw]) is appended to the call log [calls].

    Numbers.  JavaScript numbers are modelled as exact rationals [Q]:
    [1 / 60], [0.1] and [0.15] are the rationals 1/60, 1/10 and 3/20 and
    no rounding takes place; NaN only appears as the [None] result of
    [Number].  Division by zero is [0] in [Q] where JavaScript gives an
    infinity; no statement below depends on it. *)

From Stdlib Require Import QArith Qround Qabs Lqa Lia ZArith List Bool Sorted.
From stdpp Require Import gmap strings.
Import ListNotations.

#[local] Open Scope Q_scope.

(** ** Numbers *)

(** [a > b] on JavaScript numbers. *)
Definition Qgtb (a b : Q) : bool := negb (Qle_bool a b).

(** [a < b] on JavaScript numbers. *)
Definition Qltb (a b : Q) : bool := negb (Qle_bool b a).

(** [Math.round]: nearest integer, ties towards plus infinity. *)
Definition Math_round (x : Q) : Z := Qfloor (x + (1 # 2)).

(** [a || b] on numbers: [b] when [a] is missing or zero. *)
Definition orNumber (a : option Q) (b : Q) : Q :=
  match a with
  | Some x => if Qeq_bool x 0 then b else x
  | None => b
  end.

(** ** Data *)

(** [DeviceSize] of [@replay/core], with the fields this file reads. *)
Record DeviceSize := {
  width : Q;
  height : Q;
  widthMargin : Q;
  heightMargin : Q;
  deviceWidth : Q;
  deviceHeight : Q;
  fullWidth : Q;
  fullHeight : Q
}.

(** What the code reads from [window], [document] and [canvas] when a
    handler runs. *)
Record Window := {
  innerWidth : Q;
  innerHeight : Q;
  devicePixelRatio : Q;
  scrollX : Q;
  scrollY : Q;
  canvasOffsetLeft : Q;
  canvasOffsetTop : Q;
  hasPointerEvent : bool;          (* window.PointerEvent *)
  webgl : bool;                    (* canvas.getContext("webgl", ...) *)
  angleInstancedArrays : bool;     (* gl.getExtension("ANGLE_instanced_arrays") *)
  oesVertexArrayObject : bool;     (* gl.getExtension("OES_vertex_array_object") *)
  audioSuspended : bool            (* audioContext.state === "suspended" *)
}.

(** The argument record of [clientXToGameX] and [clientYToGameY]:
    canvas offset, scroll offset, width or height, its margin, scale. *)
Record ClientAxis := {
  canvasOffset : Q;
  scroll : Q;
  extent : Q;
  margin : Q;
  axisScale : Q
}.

(** The argument record of [getGameXToWebX] and [getGameYToWebY]. *)
Record GameAxis := {
  gCanvasOffset : Q;
  gExtent : Q;
  gMargin : Q;
  gScale : Q
}.

(** Event targets and the function objects handed to [addEventListener]. *)
Inductive Target := DocumentT | WindowT.

Inductive Handler :=
| KeyDownHandler                 (* const keyDownHandler *)
| KeyUpHandler                   (* const keyUpHandler *)
| InputKeyDownHandler            (* keyDownHandler of ./input *)
| InputKeyUpHandler              (* keyUpHandler of ./input *)
| HandlePageVisible
| UpdateDeviceSize
| UpdateScroll
| ContextMenuHandler             (* the anonymous arrow function *)
| OnFirstInteraction
| PointerDown (closure : nat)    (* the closures built by updateDeviceSize, *)
| PointerMove (closure : nat)    (* numbered by the run that built them     *)
| PointerUp (closure : nat)
| PointerCancel (closure : nat)
| OtherHandler (name : string).  (* a function of some other script *)

Record Listener := {
  target : Target;
  eventType : string;
  handler : Handler
}.

#[global] Instance Target_eq_dec : EqDecision Target.
Proof. solve_decision. Defined.

#[global] Instance Handler_eq_dec : EqDecision Handler.
Proof. solve_decision. Defined.

#[global] Instance Listener_eq_dec : EqDecision Listener.
Proof. solve_decision. Defined.

(** [addEventListener]: a listener already present is not added again. *)
Definition addEventListener (l : Listener) (ls : list Listener) : list Listener :=
  if decide (l ∈ ls) then ls else ls ++ [l].

(** [removeEventListener]: removing an absent listener does nothing. *)
Definition removeEventListener (l : Listener) (ls : list Listener) : list Listener :=
  filter (fun l' => l' ≠ l) ls.

(** Calls into collaborators, in the order they are made. *)
Inductive Call :=
| RunNextFrame (elapsed : Q)             (* runNextFrame(elapsed, resetInputs) *)
| RequestAnimationFrame                  (* window.requestAnimationFrame(newWebFrame) *)
| StatsBegin
| StatsEnd
| ReplayCore                             (* replayCore(domPlatform, ..., gameSprite) *)
| SetTimeoutLaunch                       (* setTimeout(launch, 50) *)
| AudioSuspend
| AudioResume
| AudioRestartTimers                     (* the nested setTimeout suspend/resume *)
| Draw (fullW fullH canvasScale : Q)     (* draw(gl, ..., canvasScale) *)
| KeyDownCall (key : string)             (* inputKeyDownHandler(e) *)
| KeyUpCall (key : string)               (* inputKeyUpHandler(e) *)
| PointerDownCall (x y : Q) (id : Z)     (* pointerDownHandler(x, y, id) *)
| PointerMoveCall (x y : Q)              (* pointerMoveHandler(x, y) *)
| PointerUpCall (x y : Q) (id : Z)       (* pointerUpHandler(x, y, id) *)
| PointerCancelCall (id : Z).            (* pointerCancelHandler(id) *)

(** One entry of [changedTouches]. *)
Record Touch := {
  screenX : Q;
  screenY : Q;
  identifier : Z
}.

(** [PointerEvent | TouchEvent]: a touch event is the one with
    ["changedTouches" in e]. *)
Inductive PointerInput :=
| PointerEv (clientX clientY : Q) (pointerId : Z)
| TouchEv (changedTouches : list Touch).

(** The visibility variables and [initTime]. *)
Record Clock := {
  isPageVisible : bool;
  lastTimeValue : Q;
  needsToUpdateNotVisibleTime : bool;
  lastPageNotVisibleTime : Q;
  totalPageNotVisibleTime : Q;
  initTime : option Q
}.

(** [mutResolution]. *)
Record MutResolution := {
  resolution : Q;
  hasSet : bool
}.

(** What the pointer closures of one [updateDeviceSize] run captured. *)
Record Closures := {
  closureId : nat;
  getX : Q -> Q;
  getY : Q -> Q
}.

Record NativeSpriteUtils := {
  didResize : bool;
  nativeScale : Q;
  nativeSize : DeviceSize;
  gameXToPlatformX : Q -> Q;
  gameYToPlatformY : Q -> Q
}.

Record Canvas := {
  canvasWidth : Z;
  canvasHeight : Z;
  styleWidth : Q;
  styleHeight : Q;
  inBody : bool
}.

Record State := {
  pointerEvents : bool;                    (* window.PointerEvent, read once *)
  isInFocus : bool;
  clock : Clock;
  mutResolution : MutResolution;
  size : DeviceSize;                       (* mutDevice.size *)
  storage : gmap string string;            (* mutDevice.storage *)
  prevDeviceSize : option DeviceSize;
  pointerClosures : option Closures;       (* pointerDown, ..., pointerCancel *)
  nextClosure : nat;
  nativeSpriteUtils : NativeSpriteUtils;
  canvas : Canvas;
  listeners : list Listener;
  isCleanedUp : bool;
  calls : list Call
}.

(** Field updates. *)
Definition set_isInFocus (b : bool) (s : State) : State :=
  {| pointerEvents := pointerEvents s;
     isInFocus := b; clock := clock s; mutResolution := mutResolution s;
     size := size s; storage := storage s; prevDeviceSize := prevDeviceSize s;
     pointerClosures := pointerClosures s; nextClosure := nextClosure s;
     nativeSpriteUtils := nativeSpriteUtils s; canvas := canvas s;
     listeners := listeners s; isCleanedUp := isCleanedUp s; calls := calls s |}.

Definition set_clock (c : Clock) (s : State) : State :=
  {| pointerEvents := pointerEvents s;
     isInFocus := isInFocus s; clock := c; mutResolution := mutResolution s;
     size := size s; storage := storage s; prevDeviceSize := prevDeviceSize s;
     pointerClosures := pointerClosures s; nextClosure := nextClosure s;
     nativeSpriteUtils := nativeSpriteUtils s; canvas := canvas s;
     listeners := listeners s; isCleanedUp := isCleanedUp s; calls := calls s |}.

Definition set_mutResolution (r : MutResolution) (s : State) : State :=
  {| pointerEvents := pointerEvents s;
     isInFocus := isInFocus s; clock := clock s; mutResolution := r;
     size := size s; storage := storage s; prevDeviceSize := prevDeviceSize s;
     pointerClosures := pointerClosures s; nextClosure := nextClosure s;
     nativeSpriteUtils := nativeSpriteUtils s; canvas := canvas s;
     listeners := listeners s; isCleanedUp := isCleanedUp s; calls := calls s |}.

Definition set_size (d : DeviceSize) (s : State) : State :=
  {| pointerEvents := pointerEvents s;
     isInFocus := isInFocus s; clock := clock s; mutResolution := mutResolution s;
     size := d; storage := storage s; prevDeviceSize := prevDeviceSize s;
     pointerClosures := pointerClosures s; nextClosure := nextClosure s;
     nativeSpriteUtils := nativeSpriteUtils s; canvas := canvas s;
     listeners := listeners s; isCleanedUp := isCleanedUp s; calls := calls s |}.

Definition set_storage (m : gmap string string) (s : State) : State :=
  {| pointerEvents := pointerEvents s;
     isInFocus := isInFocus s; clock := clock s; mutResolution := mutResolution s;
     size := size s; storage := m; prevDeviceSize := prevDeviceSize s;
     pointerClosures := pointerClosures s; nextClosure := nextClosure s;
     nativeSpriteUtils := nativeSpriteUtils s; canvas := canvas s;
     listeners := listeners s; isCleanedUp := isCleanedUp s; calls := calls s |}.

Definition set_listeners (ls : list Listener) (s : State) : State :=
  {| pointerEvents := pointerEvents s;
     isInFocus := isInFocus s; clock := clock s; mutResolution := mutResolution s;
     size := size s; storage := storage s; prevDeviceSize := prevDeviceSize s;
     pointerClosures := pointerClosures s; nextClosure := nextClosure s;
     nativeSpriteUtils := nativeSpriteUtils s; canvas := canvas s;
     listeners := ls; isCleanedUp := isCleanedUp s; calls := calls s |}.

Definition set_canvas (c : Canvas) (s : State) : State :=
  {| pointerEvents := pointerEvents s;
     isInFocus := isInFocus s; clock := clock s; mutResolution := mutResolution s;
     size := size s; storage := storage s; prevDeviceSize := prevDeviceSize s;
     pointerClosures := pointerClosures s; nextClosure := nextClosure s;
     nativeSpriteUtils := nativeSpriteUtils s; canvas := c;
     listeners := listeners s; isCleanedUp := isCleanedUp s; calls := calls s |}.

Definition set_isCleanedUp (b : bool) (s : State) : State :=
  {| pointerEvents := pointerEvents s;
     isInFocus := isInFocus s; clock := clock s; mutResolution := mutResolution s;
     size := size s; storage := storage s; prevDeviceSize := prevDeviceSize s;
     pointerClosures := pointerClosures s; nextClosure := nextClosure s;
     nativeSpriteUtils := nativeSpriteUtils s; canvas := canvas s;
     listeners := listeners s; isCleanedUp := b; calls := calls s |}.

(** [call c s]: the collaborator call [c] happens next. *)
Definition call (c : Call) (s : State) : State :=
  {| pointerEvents := pointerEvents s;
     isInFocus := isInFocus s; clock := clock s; mutResolution := mutResolution s;
     size := size s; storage := storage s; prevDeviceSize := prevDeviceSize s;
     pointerClosures := pointerClosures s; nextClosure := nextClosure s;
     nativeSpriteUtils := nativeSpriteUtils s; canvas := canvas s;
     listeners := listeners s; isCleanedUp := isCleanedUp s;
     calls := calls s ++ [c] |}.

(** The end of [updateDeviceSize]: fresh closures, fresh native-sprite
    utilities and [prevDeviceSize = mutDevice.size]. *)
Definition set_rebuilt (cl : Closures) (n : NativeSpriteUtils) (s : State) : State :=
  {| pointerEvents := pointerEvents s;
     isInFocus := isInFocus s; clock := clock s; mutResolution := mutResolution s;
     size := size s; storage := storage s; prevDeviceSize := Some (size s);
     pointerClosures := Some cl; nextClosure := S (nextClosure s);
     nativeSpriteUtils := n; canvas := canvas s;
     listeners := listeners s; isCleanedUp := isCleanedUp s; calls := calls s |}.

(** Updates of the visibility variables. *)
Definition set_isPageVisible (b : bool) (c : Clock) : Clock :=
  {| isPageVisible := b; lastTimeValue := lastTimeValue c;
     needsToUpdateNotVisibleTime := needsToUpdateNotVisibleTime c;
     lastPageNotVisibleTime := lastPageNotVisibleTime c;
     totalPageNotVisibleTime := totalPageNotVisibleTime c; initTime := initTime c |}.

Definition set_lastTimeValue (t : Q) (c : Clock) : Clock :=
  {| isPageVisible := isPageVisible c; lastTimeValue := t;
     needsToUpdateNotVisibleTime := needsToUpdateNotVisibleTime c;
     lastPageNotVisibleTime := lastPageNotVisibleTime c;
     totalPageNotVisibleTime := totalPageNotVisibleTime c; initTime := initTime c |}.

Definition set_needsToUpdateNotVisibleTime (b : bool) (c : Clock) : Clock :=
  {| isPageVisible := isPageVisible c; lastTimeValue := lastTimeValue c;
     needsToUpdateNotVisibleTime := b;
     lastPageNotVisibleTime := lastPageNotVisibleTime c;
     totalPageNotVisibleTime := totalPageNotVisibleTime c; initTime := initTime c |}.

Definition set_lastPageNotVisibleTime (t : Q) (c : Clock) : Clock :=
  {| isPageVisible := isPageVisible c; lastTimeValue := lastTimeValue c;
     needsToUpdateNotVisibleTime := needsToUpdateNotVisibleTime c;
     lastPageNotVisibleTime := t;
     totalPageNotVisibleTime := totalPageNotVisibleTime c; initTime := initTime c |}.

Definition set_totalPageNotVisibleTime (t : Q) (c : Clock) : Clock :=
  {| isPageVisible := isPageVisible c; lastTimeValue := lastTimeValue c;
     needsToUpdateNotVisibleTime := needsToUpdateNotVisibleTime c;
     lastPageNotVisibleTime := lastPageNotVisibleTime c;
     totalPageNotVisibleTime := t; initTime := initTime c |}.

Definition set_initTime (t : option Q) (c : Clock) : Clock :=
  {| isPageVisible := isPageVisible c; lastTimeValue := lastTimeValue c;
     needsToUpdateNotVisibleTime := needsToUpdateNotVisibleTime c;
     lastPageNotVisibleTime := lastPageNotVisibleTime c;
     totalPageNotVisibleTime := totalPageNotVisibleTime c; initTime := t |}.

(** The names chosen at the top of [renderCanvas]: pointer events where
    the browser has them, touch events otherwise. *)
Definition pointerDownEv (s : State) : string :=
  if pointerEvents s then "pointerdown" else "touchstart".
Definition pointerMoveEv (s : State) : string :=
  if pointerEvents s then "pointermove" else "touchmove".
Definition pointerUpEv (s : State) : string :=
  if pointerEvents s then "pointerup" else "touchend".
Definition pointerCancelEv (s : State) : string :=
  if pointerEvents s then "pointercancel" else "touchcancel".

Definition documentAdd (ev : string) (h : Handler) (s : State) : State :=
  set_listeners
    (addEventListener {| target := DocumentT; eventType := ev; handler := h |}
       (listeners s)) s.

Definition documentRemove (ev : string) (h : Handler) (s : State) : State :=
  set_listeners
    (removeEventListener {| target := DocumentT; eventType := ev; handler := h |}
       (listeners s)) s.

Definition windowAdd (ev : string) (h : Handler) (s : State) : State :=
  set_listeners
    (addEventListener {| target := WindowT; eventType := ev; handler := h |}
       (listeners s)) s.

Definition windowRemove (ev : string) (h : Handler) (s : State) : State :=
  set_listeners
    (removeEventListener {| target := WindowT; eventType := ev; handler := h |}
       (listeners s)) s.

(** The [opts] of [updateDeviceSize]; a DOM [Event] has neither key, so
    both flags are false for it, as they are for no argument at all. *)
Record UpdateOpts := {
  optCleanup : bool;
  optDidScroll : bool
}.

Definition noOpts : UpdateOpts := {| optCleanup := false; optDidScroll := false |}.

(** [isPointerOutsideGame], reading [mutDevice.size] when it is called. *)
Definition isPointerOutsideGame (d : DeviceSize) (x y : Q) : bool :=
  Qgtb x (width d / 2 + widthMargin d)
  || Qltb x (- width d / 2 - widthMargin d)
  || Qgtb y (height d / 2 + heightMargin d)
  || Qltb y (- height d / 2 - heightMargin d).

(** ** The visibility handler *)

(** [handlePageVisible], with [hidden] the value of [document.hidden]. *)
Definition handlePageVisible (hidden : bool) (s : State) : State :=
  let visible := isPageVisible (clock s) in
  let s1 :=
    if hidden && visible
    then call AudioSuspend
           (set_clock (set_lastPageNotVisibleTime (lastTimeValue (clock s)) (clock s)) s)
    else s in
  let s2 :=
    if negb hidden && negb visible
    then call AudioRestartTimers
           (set_clock (set_needsToUpdateNotVisibleTime true (clock s1)) s1)
    else s1 in
  set_clock (set_isPageVisible (negb hidden) (clock s2)) s2.

(** ** Keyboard *)

Definition keyDownHandler (key : string) (repeat : bool) (s : State) : State :=
  if negb (isInFocus s) || repeat then s else call (KeyDownCall key) s.

Definition keyUpHandler (key : string) (s : State) : State :=
  if negb (isInFocus s) then s else call (KeyUpCall key) s.

(** ** The pointer closures *)

Definition pointerDown (cl : Closures) (e : PointerInput) (s : State) : State :=
  match e with
  | TouchEv touches =>
      fold_left
        (fun s touch =>
           let x := getX cl (screenX touch) in
           let y := getY cl (screenY touch) in
           if isPointerOutsideGame (size s) x y then s
           else call (PointerDownCall x y (identifier touch)) (set_isInFocus true s))
        touches (set_isInFocus false s)
  | PointerEv cx cy id =>
      let x := getX cl cx in
      let y := getY cl cy in
      if isPointerOutsideGame (size s) x y then set_isInFocus false s
      else call (PointerDownCall x y id) (set_isInFocus true s)
  end.

Definition pointerMove (cl : Closures) (e : PointerInput) (s : State) : State :=
  match e with
  | TouchEv touches =>
      fold_left
        (fun s touch =>
           let x := getX cl (screenX touch) in
           let y := getY cl (screenY touch) in
           if isPointerOutsideGame (size s) x y then s
           else call (PointerMoveCall x y) s)
        touches s
  | PointerEv cx cy id =>
      let x := getX cl cx in
      let y := getY cl cy in
      if isPointerOutsideGame (size s) x y then s
      else call (PointerMoveCall x y) s
  end.

Definition pointerUp (cl : Closures) (e : PointerInput) (s : State) : State :=
  match e with
  | TouchEv touches =>
      fold_left
        (fun s touch =>
           let x := getX cl (screenX touch) in
           let y := getY cl (screenY touch) in
           if isPointerOutsideGame (size s) x y
           then call (PointerCancelCall (identifier touch)) s
           else call (PointerUpCall x y (identifier touch)) s)
        touches s
  | PointerEv cx cy id =>
      let x := getX cl cx in
      let y := getY cl cy in
      if isPointerOutsideGame (size s) x y
      then call (PointerCancelCall id) s
      else call (PointerUpCall x y id) s
  end.

Definition pointerCancel (e : PointerInput) (s : State) : State :=
  match e with
  | TouchEv touches =>
      fold_left (fun s touch => call (PointerCancelCall (identifier touch)) s) touches s
  | PointerEv _ _ id => call (PointerCancelCall id) s
  end.

(** ** The frame clock *)

(** [loop]: the optional [statsEnd] hook, then the next frame request. *)
Definition loop (statsEnd : bool) (s : State) : State :=
  call RequestAnimationFrame (if statsEnd then call StatsEnd s else s).

(** [newWebFrame(time)]. *)
Definition newWebFrame (statsBegin statsEnd : bool) (time : Q) (s : State) : State :=
  if isCleanedUp s then s
  else
    let s := if statsBegin then call StatsBegin s else s in
    let s :=
      match initTime (clock s) with
      | None => set_clock (set_initTime (Some (time - 1 / 60)) (clock s)) s
      | Some _ => s
      end in
    if negb (isPageVisible (clock s)) then loop statsEnd s
    else
      let s :=
        if needsToUpdateNotVisibleTime (clock s)
        then set_clock
               (set_totalPageNotVisibleTime
                  (totalPageNotVisibleTime (clock s)
                   + (time - lastPageNotVisibleTime (clock s)))
                  (set_needsToUpdateNotVisibleTime false (clock s))) s
        else s in
      let s := set_clock (set_lastTimeValue time (clock s)) s in
      let s := loop statsEnd s in
      match initTime (clock s) with
      | Some init =>
          call (RunNextFrame (time - init - totalPageNotVisibleTime (clock s))) s
      | None => s
      end.

(** The elapsed times handed to [runNextFrame], oldest first. *)
Definition elapsedTimes (cs : list Call) : list Q :=
  flat_map (fun c => match c with RunNextFrame e => [e] | _ => [] end) cs.

(** [RenderCanvasOptions] after the defaults of the destructuring
    ([dimensions = "game-coords"], [imageResolution = 3]) are applied,
    together with the game sprite's [props.size]. *)
Record RenderCanvasOptions (Dimensions GameSize : Type) := {
  dimensions : Dimensions;
  userCanvas : bool;                 (* a canvas was supplied *)
  windowSize : option (Q * Q);       (* width, height *)
  statsBegin : bool;                 (* the hook is present *)
  statsEnd : bool;
  imageResolution : Q;
  maxPixels : option Q;
  gameSize : GameSize
}.

Arguments dimensions {Dimensions GameSize} _.
Arguments userCanvas {Dimensions GameSize} _.
Arguments windowSize {Dimensions GameSize} _.
Arguments statsBegin {Dimensions GameSize} _.
Arguments statsEnd {Dimensions GameSize} _.
Arguments imageResolution {Dimensions GameSize} _.
Arguments maxPixels {Dimensions GameSize} _.
Arguments gameSize {Dimensions GameSize} _.

(** ** Sample collaborators and browser environments

    [./size], [./input], [./coordinates] and [./device] are not part of
    the embedded file, so the model takes their functions as parameters.
    To run it on concrete inputs the following stand-ins are used; they
    are examples of what such collaborators may return, nothing more. *)

(** A sizing policy under which the game fills the viewport. *)
Definition fillViewport (w h : Q) (_ _ : unit) : DeviceSize :=
  {| width := w; height := h; widthMargin := 0; heightMargin := 0;
     deviceWidth := w; deviceHeight := h; fullWidth := w; fullHeight := h |}.

(** Client coordinates to game coordinates, origin at the canvas centre. *)
Definition centredX (a : ClientAxis) (c : Q) : Q :=
  (c - canvasOffset a + scroll a) / axisScale a - extent a / 2 - margin a.

Definition centredY (a : ClientAxis) (c : Q) : Q :=
  - ((c - canvasOffset a + scroll a) / axisScale a - extent a / 2 - margin a).

Definition webX (a : GameAxis) (x : Q) : Q :=
  (x + gExtent a / 2 + gMargin a) * gScale a.

Definition webY (a : GameAxis) (y : Q) : Q :=
  (gExtent a / 2 + gMargin a - y) * gScale a.

(** A number parser that knows three strings, and a printer for the
    numbers it knows. *)
Definition parseSample (v : string) : option Q :=
  if String.eqb v "0.5" then Some (1 # 2)
  else if String.eqb v "2" then Some 2
  else if String.eqb v "0.05" then Some (1 # 20)
  else None.

Definition printSample (q : Q) : string :=
  if Qeq_bool q (1 # 2) then "0.5"
  else if Qeq_bool q 2 then "2"
  else if Qeq_bool q (1 # 20) then "0.05"
  else "1".

(** An 800 x 600 desktop window at pixel ratio 1 with every WebGL
    capability, and variations of it. *)
Definition desktop : Window :=
  {| innerWidth := 800; innerHeight := 600; devicePixelRatio := 1;
     scrollX := 0; scrollY := 0; canvasOffsetLeft := 0; canvasOffsetTop := 0;
     hasPointerEvent := true; webgl := true; angleInstancedArrays := true;
     oesVertexArrayObject := true; audioSuspended := false |}.

(** The same page after the window moved to a screen of pixel ratio 2
    and the viewport lost 100 pixels of height. *)
Definition denseShort : Window :=
  {| innerWidth := 800; innerHeight := 500; devicePixelRatio := 2;
     scrollX := 0; scrollY := 40; canvasOffsetLeft := 0; canvasOffsetTop := 0;
     hasPointerEvent := true; webgl := true; angleInstancedArrays := true;
     oesVertexArrayObject := true; audioSuspended := false |}.

(** A browser without the vertex-array-object extension. *)
Definition noVao : Window :=
  {| innerWidth := 800; innerHeight := 600; devicePixelRatio := 1;
     scrollX := 0; scrollY := 0; canvasOffsetLeft := 0; canvasOffsetTop := 0;
     hasPointerEvent := true; webgl := true; angleInstancedArrays := true;
     oesVertexArrayObject := false; audioSuspended := false |}.

(** A page whose viewport has no size yet, as happens at launch on some
    devices. *)
Definition unsized : Window :=
  {| innerWidth := 0; innerHeight := 0; devicePixelRatio := 1;
     scrollX := 0; scrollY := 0; canvasOffsetLeft := 0; canvasOffsetTop := 0;
     hasPointerEvent := true; webgl := true; angleInstancedArrays := true;
     oesVertexArrayObject := true; audioSuspended := false |}.

(** Options with and without a pixel budget. *)
Definition plainOptions : RenderCanvasOptions unit unit :=
  {| dimensions := tt; userCanvas := false; windowSize := None;
     statsBegin := false; statsEnd := false; imageResolution := 3;
     maxPixels := None; gameSize := tt |}.

Definition budgetOptions (budget : Q) : RenderCanvasOptions unit unit :=
  {| dimensions := tt; userCanvas := false; windowSize := None;
     statsBegin := false; statsEnd := false; imageResolution := 3;
     maxPixels := Some budget; gameSize := tt |}.

(** A listener some other script registered before the game starts. *)
Definition foreignListener : Listener :=
  {| target := WindowT; eventType := "load"; handler := OtherHandler "analytics" |}.

(** ** Viewport, resolution and start-up *)

Section Platform.

(** The sizing strategy of [./dimensions] and the game size of
    [gameSprite.props.size] are only passed through. *)
Context {Dimensions GameSize : Type}.

(** [calculateDeviceSize] of [./size]. *)
Variable calculateDeviceSize : Q -> Q -> Dimensions -> GameSize -> DeviceSize.

(** [clientXToGameX], [clientYToGameY] of [./input]. *)
Variable clientXToGameX : ClientAxis -> Q -> Q.
Variable clientYToGameY : ClientAxis -> Q -> Q.

(** [getGameXToWebX], [getGameYToWebY] of [./coordinates]. *)
Variable getGameXToWebX : GameAxis -> Q -> Q.
Variable getGameYToWebY : GameAxis -> Q -> Q.

(** JavaScript's [Number(value)] on a string ([None] is NaN) and
    [String(resolution)] on a number. *)
Variable JS_Number : string -> option Q.
Variable JS_String : Q -> string.

(** [RESOLUTION_KEY] of [./device]. *)
Variable RESOLUTION_KEY : string.

Variable options : RenderCanvasOptions Dimensions GameSize.

(** [windowSize?.width || window.innerWidth], and the same for height. *)
Definition viewWidth (w : Window) : Q :=
  orNumber (fst <$> windowSize options) (innerWidth w).

Definition viewHeight (w : Window) : Q :=
  orNumber (snd <$> windowSize options) (innerHeight w).

(** The [calculateDeviceSize(...)] call, made with the same arguments in
    [updateDeviceSize] and in the construction of [mutDevice]. *)
Definition viewportDeviceSize (w : Window) : DeviceSize :=
  calculateDeviceSize (viewWidth w) (viewHeight w) (dimensions options) (gameSize options).

(** [canvasWidth] and [canvasHeight] as [updateDeviceSize] computes them
    from [mutDevice.size] and [mutResolution.resolution]. *)
Definition canvasBuffer (w : Window) (d : DeviceSize) (res : Q) : Z * Z :=
  let dpr := orNumber (Some (devicePixelRatio w)) 1 in
  let canvasWidthDevice := deviceWidth d * dpr * res in
  let canvasWidthGame := fullWidth d * imageResolution options in
  if Qgtb canvasWidthDevice canvasWidthGame
  then (Math_round canvasWidthGame, Math_round (fullHeight d * imageResolution options))
  else (Math_round canvasWidthDevice, Math_round (deviceHeight d * dpr * res)).

(** [canvasWidth * canvasHeight]. *)
Definition pixelCount (w : Window) (d : DeviceSize) (res : Q) : Q :=
  inject_Z (fst (canvasBuffer w d res) * snd (canvasBuffer w d res)).

(** [maxPixels && canvasWidth * canvasHeight > maxPixels]: a budget of
    zero is falsy, that is, no budget. *)
Definition overBudget (pixels : Q) : bool :=
  match maxPixels options with
  | Some m => negb (Qeq_bool m 0) && Qgtb pixels m
  | None => false
  end.

(** The condition of the automatic step-down. *)
Definition stepDownGuard (w : Window) (d : DeviceSize) (r : MutResolution) : bool :=
  overBudget (pixelCount w d (resolution r))
  && negb (hasSet r)
  && Qgtb (resolution r) (15 # 100).

(** The four [removeEventListener] calls on the current closures. *)
Definition removePointerListeners (s : State) : State :=
  match pointerClosures s with
  | Some cl =>
      documentRemove (pointerCancelEv s) (PointerCancel (closureId cl))
        (documentRemove (pointerUpEv s) (PointerUp (closureId cl))
           (documentRemove (pointerMoveEv s) (PointerMove (closureId cl))
              (documentRemove (pointerDownEv s) (PointerDown (closureId cl)) s)))
  | None => s
  end.

(** [updateDeviceSize] from [canvas.width = canvasWidth] to its end. *)
Definition rebuild (w : Window) (s : State) : State :=
  let d := size s in
  let '(cw, ch) := canvasBuffer w d (resolution (mutResolution s)) in
  let canvasScale := inject_Z cw / fullWidth d in
  let s := set_canvas {| canvasWidth := cw; canvasHeight := ch;
                         styleWidth := deviceWidth d; styleHeight := deviceHeight d;
                         inBody := inBody (canvas s) |} s in
  let fullW := width d + widthMargin d * 2 in
  let fullH := height d + heightMargin d * 2 in
  let s := call (Draw fullW fullH canvasScale) s in
  let scale := deviceWidth d / fullW in
  let utils :=
    {| didResize := true; nativeScale := scale; nativeSize := d;
       gameXToPlatformX :=
         getGameXToWebX {| gCanvasOffset := canvasOffsetLeft w; gExtent := width d;
                           gMargin := widthMargin d; gScale := scale |};
       gameYToPlatformY :=
         getGameYToWebY {| gCanvasOffset := canvasOffsetTop w; gExtent := height d;
                           gMargin := heightMargin d; gScale := scale |} |} in
  let cl :=
    {| closureId := nextClosure s;
       getX := clientXToGameX {| canvasOffset := canvasOffsetLeft w; scroll := scrollX w;
                                 extent := width d; margin := widthMargin d;
                                 axisScale := scale |};
       getY := clientYToGameY {| canvasOffset := canvasOffsetTop w; scroll := scrollY w;
                                 extent := height d; margin := heightMargin d;
                                 axisScale := scale |} |} in
  let s :=
    documentAdd (pointerCancelEv s) (PointerCancel (closureId cl))
      (documentAdd (pointerUpEv s) (PointerUp (closureId cl))
         (documentAdd (pointerMoveEv s) (PointerMove (closureId cl))
            (documentAdd (pointerDownEv s) (PointerDown (closureId cl)) s))) in
  set_rebuilt cl utils s.

(** [if (prevDeviceSize)]: an object is truthy. *)
Definition hasPrevDeviceSize (s : State) : bool :=
  match prevDeviceSize s with
  | Some _ => true
  | None => false
  end.

(** The start of [updateDeviceSize]: with a previous size, the pointer
    listeners of the previous run are removed. *)
Definition detached (s : State) : State :=
  if hasPrevDeviceSize s then removePointerListeners s else s.

(** [updateDeviceSize] between the early return of a clean-up and the
    step-down test: [mutDevice.size] is recomputed unless this is a
    scroll with a previous size. *)
Definition resized (w : Window) (opts : UpdateOpts) (s : State) : State :=
  if negb (optDidScroll opts && hasPrevDeviceSize s)
  then set_size (viewportDeviceSize w) s
  else s.

(** [mutResolution.resolution -= 0.1]. *)
Definition stepDown (s : State) : State :=
  set_mutResolution
    {| resolution := resolution (mutResolution s) - (1 # 10);
       hasSet := hasSet (mutResolution s) |} s.

(** [updateDeviceSize(opts)].  The recursion of the source is on the
    multiplier; here it is structural on [fuel], and
    [updateDeviceSize_unfold] below shows that [updateDeviceSize] obeys
    the recursive equation of the source for every input. *)
Fixpoint updateDeviceSize_fuel (fuel : nat) (w : Window) (opts : UpdateOpts)
    (s : State) : State :=
  if hasPrevDeviceSize s && optCleanup opts
  then detached s
  else
    let s1 := resized w opts (detached s) in
    if stepDownGuard w (size s1) (mutResolution s1)
    then
      match fuel with
      | O => stepDown s1
      | S fuel' => updateDeviceSize_fuel fuel' w noOpts (stepDown s1)
      end
    else rebuild w s1.

(** Enough fuel for every step-down from multiplier [r]. *)
Definition stepBound (r : Q) : nat := Z.to_nat (Qceiling (10 * r)).

Definition updateDeviceSize (w : Window) (opts : UpdateOpts) (s : State) : State :=
  updateDeviceSize_fuel (stepBound (resolution (mutResolution s))) w opts s.

(** [mutResolution.set(resolution)]. *)
Definition resolution_set (w : Window) (value : Q) (s : State) : State :=
  let s := set_mutResolution {| resolution := value; hasSet := true |} s in
  let s := updateDeviceSize w noOpts s in
  set_storage (<[RESOLUTION_KEY := JS_String value]> (storage s)) s.

(** The callback of [mutDevice.storage.getItem(RESOLUTION_KEY).then]. *)
Definition storedResolution (w : Window) (value : option string) (s : State) : State :=
  match value with
  | Some v =>
      match JS_Number v with
      | Some r => resolution_set w r s
      | None => s
      end
  | None => s
  end.

(** [onFirstInteraction]. *)
Definition onFirstInteraction (w : Window) (s : State) : State :=
  let s := documentRemove "keydown" OnFirstInteraction s in
  let s := documentRemove (pointerDownEv s) OnFirstInteraction s in
  if audioSuspended w then call AudioResume s else s.

(** [launch]; [initTime] starts as [null] when the loop is set up. *)
Definition launch (w : Window) (s : State) : State :=
  if Qeq_bool (viewWidth w) 0 || Qeq_bool (viewHeight w) 0
  then call SetTimeoutLaunch s
  else
    let s := updateDeviceSize w noOpts s in
    let s := call ReplayCore s in
    let s := set_clock (set_initTime None (clock s)) s in
    loop (statsEnd options) s.

(** [cleanup]. *)
Definition cleanup (w : Window) (s : State) : State :=
  let c := canvas s in
  let s :=
    if userCanvas options then s
    else set_canvas {| canvasWidth := canvasWidth c; canvasHeight := canvasHeight c;
                       styleWidth := styleWidth c; styleHeight := styleHeight c;
                       inBody := false |} s in
  let s := set_isCleanedUp true s in
  let s := documentRemove "keydown" InputKeyDownHandler s in
  let s := documentRemove "keyup" InputKeyUpHandler s in
  let s := documentRemove "visibilitychange" HandlePageVisible s in
  let s := windowRemove "resize" UpdateDeviceSize s in
  let s := windowRemove "scroll" UpdateScroll s in
  updateDeviceSize w {| optCleanup := true; optDidScroll := false |} s.

(** What [renderCanvas] returns: an [Error] value, with the document's
    listeners and the collaborator calls as they are at that moment, or
    the running platform together with the value the pending
    [getItem(RESOLUTION_KEY)] promise will resolve to. *)
Inductive Outcome :=
| Error (message : string) (documentListeners : list Listener) (made : list Call)
| Started (s : State) (stored : option string).

(** The variables of [renderCanvas] as they are declared. *)
Definition declared (w : Window) (doc : list Listener) (store : gmap string string)
    : State :=
  {| pointerEvents := hasPointerEvent w;
     isInFocus := true;
     clock := {| isPageVisible := true; lastTimeValue := 0;
                 needsToUpdateNotVisibleTime := false;
                 lastPageNotVisibleTime := 0; totalPageNotVisibleTime := 0;
                 initTime := None |};
     mutResolution := {| resolution := 1; hasSet := false |};
     size := viewportDeviceSize w;
     storage := store;
     prevDeviceSize := None;
     pointerClosures := None;
     nextClosure := O;
     nativeSpriteUtils :=
       {| didResize := false; nativeScale := 1; nativeSize := viewportDeviceSize w;
          gameXToPlatformX := fun x => x; gameYToPlatformY := fun y => y |};
     canvas := {| canvasWidth := 300; canvasHeight := 150;
                  styleWidth := 0; styleHeight := 0;
                  inBody := negb (userCanvas options) |};
     listeners := doc;
     isCleanedUp := false;
     calls := [] |}.

(** [renderCanvas], started in a document with the listeners [doc] and a
    store [store]. *)
Definition renderCanvas (w : Window) (doc : list Listener)
    (store : gmap string string) : Outcome :=
  if negb (webgl w) then Error "WebGL not supported" doc []
  else if negb (angleInstancedArrays w) then Error "WebGL instancing not supported" doc []
  else if negb (oesVertexArrayObject w) then Error "WebGL VAO not supported" doc []
  else
    let s := declared w doc store in
    let s := documentAdd "keydown" KeyDownHandler s in
    let s := documentAdd "keyup" KeyUpHandler s in
    let s := documentAdd "visibilitychange" HandlePageVisible s in
    let s := windowAdd "resize" UpdateDeviceSize s in
    let s := windowAdd "scroll" UpdateScroll s in
    let s := documentAdd "contextmenu" ContextMenuHandler s in
    let stored := storage s !! RESOLUTION_KEY in
    let s := documentAdd "keydown" OnFirstInteraction s in
    let s := documentAdd (pointerDownEv s) OnFirstInteraction s in
    Started (launch w s) stored.

(** ** Events *)

(** What can reach the platform once [renderCanvas] has returned: browser
    events, the game calling [device.resolution.set], the stored
    resolution arriving, and [cleanup]. *)
Inductive Event :=
| AnimationFrame (time : Q)
| VisibilityChange (hidden : bool)
| ResizeEvent
| ScrollEvent
| KeyDownEvent (key : string) (repeat : bool)
| KeyUpEvent (key : string)
| PointerDownEvent (e : PointerInput)
| PointerMoveEvent (e : PointerInput)
| PointerUpEvent (e : PointerInput)
| PointerCancelEvent (e : PointerInput)
| FirstInteraction
| ResolutionSet (value : Q)
| StoredResolution (value : option string)
| LaunchTimeout
| CleanupCall.

(** One event, handled in the browser environment [w]. *)
Definition step (w : Window) (e : Event) (s : State) : State :=
  match e with
  | AnimationFrame time => newWebFrame (statsBegin options) (statsEnd options) time s
  | VisibilityChange hidden => handlePageVisible hidden s
  | ResizeEvent => updateDeviceSize w noOpts s
  | ScrollEvent => updateDeviceSize w {| optCleanup := false; optDidScroll := true |} s
  | KeyDownEvent key repeat => keyDownHandler key repeat s
  | KeyUpEvent key => keyUpHandler key s
  | PointerDownEvent e =>
      match pointerClosures s with Some cl => pointerDown cl e s | None => s end
  | PointerMoveEvent e =>
      match pointerClosures s with Some cl => pointerMove cl e s | None => s end
  | PointerUpEvent e =>
      match pointerClosures s with Some cl => pointerUp cl e s | None => s end
  | PointerCancelEvent e =>
      match pointerClosures s with Some _ => pointerCancel e s | None => s end
  | FirstInteraction => onFirstInteraction w s
  | ResolutionSet value => resolution_set w value s
  | StoredResolution value => storedResolution w value s
  | LaunchTimeout => launch w s
  | CleanupCall => cleanup w s
  end.

(** Whether handling the event calls [mutResolution.set]. *)
Definition callsSet (e : Event) : bool :=
  match e with
  | ResolutionSet _ => true
  | StoredResolution (Some v) =>
      match JS_Number v with Some _ => true | None => false end
  | _ => false
  end.

(** A sequence of events, each with the environment it is handled in. *)
Definition run (evs : list (Window * Event)) (s : State) : State :=
  fold_left (fun s we => step (fst we) (snd we) s) evs s.



(** ** The clock's events and invariant *)




(** ** Notions used to state further properties *)

(** How many times [window.requestAnimationFrame] was called. *)
Definition frameRequests (cs : list Call) : nat :=
  length (flat_map (fun c => match c with RequestAnimationFrame => [tt] | _ => [] end) cs).

(** Whether a touch converts to a point inside the game. *)
Definition touchInside (cl : Closures) (d : DeviceSize) (touch : Touch) : bool :=
  negb (isPointerOutsideGame d (getX cl (screenX touch)) (getY cl (screenY touch))).

(** The handlers that [updateDeviceSize] builds. *)
Definition isPointerHandler (h : Handler) : bool :=
  match h with
  | PointerDown _ | PointerMove _ | PointerUp _ | PointerCancel _ => true
  | _ => false
  end.

(** The four listeners [updateDeviceSize] attaches for the closures
    numbered [id]. *)
Definition pointerListeners (s : State) (id : nat) : list Listener :=
  [ {| target := DocumentT; eventType := pointerDownEv s; handler := PointerDown id |};
    {| target := DocumentT; eventType := pointerMoveEv s; handler := PointerMove id |};
    {| target := DocumentT; eventType := pointerUpEv s; handler := PointerUp id |};
    {| target := DocumentT; eventType := pointerCancelEv s;
       handler := PointerCancel id |} ].

(** Every pointer listener in the document belongs to the current
    closures, and there is a stored size whenever there is one. *)
Definition pointerListenersCurrent (s : State) : Prop :=
  forall l : Listener,
    l ∈ listeners s -> isPointerHandler (handler l) = true ->
    exists cl : Closures,
      pointerClosures s = Some cl /\ hasPrevDeviceSize s = true
      /\ l ∈ pointerListeners s (closureId cl).

(** The step from [s] to [s'] neither touched the clock nor called the
    engine, and kept the clean-up flag. *)
Definition quiet (s s' : State) : Prop :=
  clock s' = clock s
  /\ elapsedTimes (calls s') = elapsedTimes (calls s)
  /\ isCleanedUp s' = isCleanedUp s.

(** The step from [s] to [s'] left the listeners, the pointer closures
    and the stored size alone. *)
Definition sameWiring (s s' : State) : Prop :=
  listeners s' = listeners s
  /\ pointerClosures s' = pointerClosures s
  /\ prevDeviceSize s' = prevDeviceSize s
  /\ pointerEvents s' = pointerEvents s.

(** [cleanup] up to its last line: the state it hands to
    [updateDeviceSize({ cleanup: true })]. *)
Definition cleanupStart (s : State) : State :=
  let c := canvas s in
  let s :=
    if userCanvas options then s
    else set_canvas {| canvasWidth := canvasWidth c; canvasHeight := canvasHeight c;
                       styleWidth := styleWidth c; styleHeight := styleHeight c;
                       inBody := false |} s in
  let s := set_isCleanedUp true s in
  let s := documentRemove "keydown" InputKeyDownHandler s in
  let s := documentRemove "keyup" InputKeyUpHandler s in
  let s := documentRemove "visibilitychange" HandlePageVisible s in
  let s := windowRemove "resize" UpdateDeviceSize s in
  windowRemove "scroll" UpdateScroll s.


(** * Facts *)

(** ** Comparisons and rounding *)

Lemma Qgtb_true (a b : Q) : Qgtb a b = true <-> b < a.
Proof.
  unfold Qgtb. rewrite negb_true_iff, <- not_true_iff_false, Qle_bool_iff.
  split; [apply Qnot_le_lt | apply Qlt_not_le].
Qed.

Lemma Qgtb_false (a b : Q) : Qgtb a b = false <-> a <= b.
Proof.
  unfold Qgtb. rewrite negb_false_iff. apply Qle_bool_iff.
Qed.

Lemma Qgtb_proper (a a' b b' : Q) : a == a' -> b == b' -> Qgtb a b = Qgtb a' b'.
Proof.
  intros Ha Hb. destruct (Qgtb a' b') eqn:E.
  - apply Qgtb_true. apply Qgtb_true in E. rewrite Ha, Hb. exact E.
  - apply Qgtb_false. apply Qgtb_false in E. rewrite Ha, Hb. exact E.
Qed.

Lemma Math_round_proper (a b : Q) : a == b -> Math_round a = Math_round b.
Proof.
  intros H. unfold Math_round. apply Qfloor_comp. rewrite H. reflexivity.
Qed.

Lemma inject_nat_succ (n : nat) :
  inject_Z (Z.of_nat (S n)) == inject_Z (Z.of_nat n) + 1.
Proof.
  rewrite Nat2Z.inj_succ. unfold Z.succ. rewrite inject_Z_plus. reflexivity.
Qed.

Lemma stepBound_enough (r : Q) : 10 * r <= inject_Z (Z.of_nat (stepBound r)).
Proof.
  unfold stepBound.
  eapply Qle_trans; [apply Qle_ceiling |].
  rewrite <- Zle_Qle. lia.
Qed.

(** ** What the parts of [updateDeviceSize] leave alone *)

Lemma removePointerListeners_frame (s : State) :
  let s' := removePointerListeners s in
  mutResolution s' = mutResolution s /\ size s' = size s
  /\ prevDeviceSize s' = prevDeviceSize s /\ clock s' = clock s
  /\ calls s' = calls s /\ isCleanedUp s' = isCleanedUp s
  /\ storage s' = storage s /\ pointerEvents s' = pointerEvents s.
Proof.
  unfold removePointerListeners. destruct (pointerClosures s); cbn; auto 10.
Qed.

Lemma resized_frame (w : Window) (opts : UpdateOpts) (s : State) :
  let s' := resized w opts s in
  mutResolution s' = mutResolution s /\ prevDeviceSize s' = prevDeviceSize s
  /\ clock s' = clock s /\ calls s' = calls s /\ isCleanedUp s' = isCleanedUp s
  /\ storage s' = storage s /\ pointerEvents s' = pointerEvents s.
Proof.
  unfold resized. destruct (negb _); cbn; auto 10.
Qed.

Lemma rebuild_frame (w : Window) (s : State) :
  let s' := rebuild w s in
  mutResolution s' = mutResolution s /\ size s' = size s
  /\ prevDeviceSize s' = Some (size s) /\ clock s' = clock s
  /\ isCleanedUp s' = isCleanedUp s /\ storage s' = storage s
  /\ elapsedTimes (calls s') = elapsedTimes (calls s)
  /\ pointerEvents s' = pointerEvents s.
Proof.
  unfold rebuild. destruct (canvasBuffer _ _ _) as [cw ch]. cbn.
  repeat split; try reflexivity.
  unfold elapsedTimes. rewrite flat_map_app. cbn. apply app_nil_r.
Qed.

Lemma beforeTest_frame (w : Window) (opts : UpdateOpts) (s : State) :
  let s' := resized w opts (detached s) in
  mutResolution s' = mutResolution s /\ prevDeviceSize s' = prevDeviceSize s
  /\ clock s' = clock s /\ calls s' = calls s /\ isCleanedUp s' = isCleanedUp s
  /\ storage s' = storage s /\ pointerEvents s' = pointerEvents s.
Proof.
  unfold detached.
  pose proof (removePointerListeners_frame s) as R. cbn zeta in R.
  destruct (hasPrevDeviceSize s).
  - destruct (resized_frame w opts (removePointerListeners s))
      as (-> & -> & -> & -> & -> & -> & ->).
    destruct R as (-> & _ & -> & -> & -> & -> & -> & ->). auto 10.
  - apply resized_frame.
Qed.

Lemma beforeTest_size (w : Window) (opts : UpdateOpts) (s : State) :
  size (resized w opts (detached s))
  = if optDidScroll opts && hasPrevDeviceSize s then size s else viewportDeviceSize w.
Proof.
  unfold resized.
  pose proof (removePointerListeners_frame s) as R. cbn zeta in R.
  assert (H : hasPrevDeviceSize (detached s) = hasPrevDeviceSize s).
  { unfold detached, hasPrevDeviceSize at 1 3. destruct (hasPrevDeviceSize s); [|reflexivity].
    destruct R as (_ & _ & -> & _). reflexivity. }
  rewrite H. destruct (optDidScroll opts && hasPrevDeviceSize s); cbn; [|reflexivity].
  unfold detached. destruct (hasPrevDeviceSize s); [apply R | reflexivity].
Qed.

(** ** The recursion of [updateDeviceSize] *)

Lemma stepDown_resolution (s : State) :
  resolution (mutResolution (stepDown s)) = resolution (mutResolution s) - (1 # 10).
Proof. reflexivity. Qed.

Lemma stepDown_hasSet (s : State) :
  hasSet (mutResolution (stepDown s)) = hasSet (mutResolution s).
Proof. reflexivity. Qed.

(** Fuel beyond ten times the multiplier is never used. *)
Lemma updateDeviceSize_fuel_irrelevant (n m : nat) :
  forall (w : Window) (opts : UpdateOpts) (s : State),
    10 * resolution (mutResolution s) <= inject_Z (Z.of_nat n) ->
    10 * resolution (mutResolution s) <= inject_Z (Z.of_nat m) ->
    updateDeviceSize_fuel n w opts s = updateDeviceSize_fuel m w opts s.
Proof.
  revert m. induction n as [|n IH]; intros m w opts s Hn Hm.
  - destruct m as [|m]; [reflexivity|].
    cbn [updateDeviceSize_fuel].
    destruct (hasPrevDeviceSize s && optCleanup opts); [reflexivity|].
    destruct (stepDownGuard _ _ _) eqn:G; [|reflexivity].
    exfalso. unfold stepDownGuard in G.
    apply andb_prop in G as [_ G]. apply Qgtb_true in G.
    destruct (beforeTest_frame w opts s) as (R & _). rewrite R in G.
    unfold Qle in Hn; cbn in Hn; unfold Qlt in G; cbn in G; lia.
  - destruct m as [|m].
    + cbn [updateDeviceSize_fuel].
      destruct (hasPrevDeviceSize s && optCleanup opts); [reflexivity|].
        destruct (stepDownGuard _ _ _) eqn:G; [|reflexivity].
      exfalso. unfold stepDownGuard in G.
      apply andb_prop in G as [_ G]. apply Qgtb_true in G.
      destruct (beforeTest_frame w opts s) as (R & _). rewrite R in G.
      unfold Qle in Hm; cbn in Hm; unfold Qlt in G; cbn in G; lia.
    + cbn [updateDeviceSize_fuel].
      destruct (hasPrevDeviceSize s && optCleanup opts); [reflexivity|].
        destruct (stepDownGuard _ _ _) eqn:G; [|reflexivity].
      destruct (beforeTest_frame w opts s) as (R & _).
      apply IH; rewrite stepDown_resolution, R.
      * rewrite inject_nat_succ in Hn. lra.
      * rewrite inject_nat_succ in Hm. lra.
Qed.

(** [updateDeviceSize] satisfies the recursive definition of the source. *)
Lemma updateDeviceSize_unfold (w : Window) (opts : UpdateOpts) (s : State) :
  updateDeviceSize w opts s =
    if hasPrevDeviceSize s && optCleanup opts
    then detached s
    else
      let s1 := resized w opts (detached s) in
      if stepDownGuard w (size s1) (mutResolution s1)
      then updateDeviceSize w noOpts (stepDown s1)
      else rebuild w s1.
Proof.
  unfold updateDeviceSize.
  destruct (stepBound (resolution (mutResolution s))) as [|n] eqn:B.
  - cbn [updateDeviceSize_fuel].
    destruct (hasPrevDeviceSize s && optCleanup opts); [reflexivity|].
    cbn zeta.
    destruct (stepDownGuard _ _ _) eqn:G; [|reflexivity].
    exfalso. unfold stepDownGuard in G.
    apply andb_prop in G as [_ G]. apply Qgtb_true in G.
    destruct (beforeTest_frame w opts s) as (R & _). rewrite R in G.
    pose proof (stepBound_enough (resolution (mutResolution s))) as E.
    rewrite B in E. unfold Qle in E; cbn in E; unfold Qlt in G; cbn in G; lia.
  - cbn [updateDeviceSize_fuel].
    destruct (hasPrevDeviceSize s && optCleanup opts); [reflexivity|].
    cbn zeta.
    destruct (stepDownGuard _ _ _) eqn:G; [|reflexivity].
    destruct (beforeTest_frame w opts s) as (R & _).
    apply updateDeviceSize_fuel_irrelevant.
    + rewrite stepDown_resolution, R.
      pose proof (stepBound_enough (resolution (mutResolution s))) as E.
      rewrite B, inject_nat_succ in E. lra.
    + apply stepBound_enough.
Qed.

(** ** What the handlers leave alone *)

Lemma fold_left_invariant {A : Type} (P : State -> Prop) (f : State -> A -> State)
    (l : list A) (s : State) :
  (forall s' a, P s' -> P (f s' a)) -> P s -> P (fold_left f l s).
Proof.
  intros Hf. revert s. induction l as [|a l IH]; intros s Hs; cbn; auto.
Qed.

Lemma elapsedTimes_app (a b : list Call) :
  elapsedTimes (a ++ b) = elapsedTimes a ++ elapsedTimes b.
Proof. unfold elapsedTimes. apply flat_map_app. Qed.

(** The part of the state that only [updateDeviceSize] and
    [mutResolution.set] may change. *)
Lemma newWebFrame_resolution (b e : bool) (t : Q) (s : State) :
  mutResolution (newWebFrame b e t s) = mutResolution s.
Proof.
  destruct s as [? ? [v ? n ? ? i] ? ? ? ? ? ? ? ? ? cu ?].
  unfold newWebFrame, loop. cbn.
  destruct cu, b, e, i, v, n; reflexivity.
Qed.

Lemma handlePageVisible_resolution (hidden : bool) (s : State) :
  mutResolution (handlePageVisible hidden s) = mutResolution s.
Proof.
  unfold handlePageVisible. destruct hidden, (isPageVisible (clock s)); reflexivity.
Qed.

Lemma pointerDown_resolution (cl : Closures) (e : PointerInput) (s : State) :
  mutResolution (pointerDown cl e s) = mutResolution s.
Proof.
  destruct e as [x y id | touches]; cbn.
  - destruct (isPointerOutsideGame _ _ _); reflexivity.
  - apply (fold_left_invariant (fun s' => mutResolution s' = mutResolution s));
      [|reflexivity].
    intros s' a H. destruct (isPointerOutsideGame _ _ _); exact H.
Qed.

Lemma pointerMove_resolution (cl : Closures) (e : PointerInput) (s : State) :
  mutResolution (pointerMove cl e s) = mutResolution s.
Proof.
  destruct e as [x y id | touches]; cbn.
  - destruct (isPointerOutsideGame _ _ _); reflexivity.
  - apply (fold_left_invariant (fun s' => mutResolution s' = mutResolution s));
      [|reflexivity].
    intros s' a H. destruct (isPointerOutsideGame _ _ _); exact H.
Qed.

Lemma pointerUp_resolution (cl : Closures) (e : PointerInput) (s : State) :
  mutResolution (pointerUp cl e s) = mutResolution s.
Proof.
  destruct e as [x y id | touches]; cbn.
  - destruct (isPointerOutsideGame _ _ _); reflexivity.
  - apply (fold_left_invariant (fun s' => mutResolution s' = mutResolution s));
      [|reflexivity].
    intros s' a H. destruct (isPointerOutsideGame _ _ _); exact H.
Qed.

Lemma pointerCancel_resolution (e : PointerInput) (s : State) :
  mutResolution (pointerCancel e s) = mutResolution s.
Proof.
  destruct e as [x y id | touches]; cbn; [reflexivity|].
  apply (fold_left_invariant (fun s' => mutResolution s' = mutResolution s));
    [|reflexivity].
  intros s' a H. exact H.
Qed.

(** ** No step-down under a user override *)

Lemma stepDownGuard_hasSet (w : Window) (d : DeviceSize) (r : MutResolution) :
  hasSet r = true -> stepDownGuard w d r = false.
Proof.
  intros H. unfold stepDownGuard. rewrite H. cbn.
  rewrite andb_false_r. reflexivity.
Qed.

Lemma updateDeviceSize_hasSet (w : Window) (opts : UpdateOpts) (s : State) :
  hasSet (mutResolution s) = true ->
  mutResolution (updateDeviceSize w opts s) = mutResolution s.
Proof.
  intros H. rewrite updateDeviceSize_unfold.
  destruct (hasPrevDeviceSize s && optCleanup opts).
  - unfold detached. destruct (hasPrevDeviceSize s); [|reflexivity].
    apply removePointerListeners_frame.
  - cbn zeta. destruct (beforeTest_frame w opts s) as (R & _).
    rewrite stepDownGuard_hasSet by (rewrite R; exact H).
    destruct (rebuild_frame w (resized w opts (detached s))) as (-> & _). exact R.
Qed.

Lemma step_hasSet (w : Window) (e : Event) (s : State) :
  hasSet (mutResolution s) = true ->
  hasSet (mutResolution (step w e s)) = true
  /\ (callsSet e = false -> mutResolution (step w e s) = mutResolution s).
Proof.
  intros H.
  assert (K : forall s', mutResolution s' = mutResolution s ->
                hasSet (mutResolution s') = true
                /\ (callsSet e = false -> mutResolution s' = mutResolution s)).
  { intros s' ->. auto. }
  assert (SET : forall v, hasSet (mutResolution (resolution_set w v s)) = true).
  { intros v. unfold resolution_set. cbn [mutResolution set_storage].
    rewrite updateDeviceSize_hasSet; reflexivity. }
  destruct e; cbn [step].
  - apply K, newWebFrame_resolution.
  - apply K, handlePageVisible_resolution.
  - apply K, updateDeviceSize_hasSet, H.
  - apply K, updateDeviceSize_hasSet, H.
  - apply K. unfold keyDownHandler. destruct (_ || _); reflexivity.
  - apply K. unfold keyUpHandler. destruct (negb _); reflexivity.
  - apply K. destruct (pointerClosures s); [apply pointerDown_resolution | reflexivity].
  - apply K. destruct (pointerClosures s); [apply pointerMove_resolution | reflexivity].
  - apply K. destruct (pointerClosures s); [apply pointerUp_resolution | reflexivity].
  - apply K. destruct (pointerClosures s); [apply pointerCancel_resolution | reflexivity].
  - apply K. unfold onFirstInteraction. destruct (audioSuspended w); reflexivity.
  - split; [apply SET | discriminate].
  - unfold storedResolution, callsSet.
    destruct value as [v|]; [|auto].
    destruct (JS_Number v); [split; [apply SET | discriminate] | auto].
  - apply K. unfold launch. destruct (_ || _); [reflexivity|].
    unfold loop. destruct (statsEnd options); cbn; apply updateDeviceSize_hasSet, H.
  - apply K. unfold cleanup.
    rewrite updateDeviceSize_hasSet; destruct (userCanvas options); try reflexivity; exact H.
Qed.

Lemma run_snoc (evs : list (Window * Event)) (we : Window * Event) (s : State) :
  run (evs ++ [we]) s = step (fst we) (snd we) (run evs s).
Proof. unfold run. rewrite fold_left_app. reflexivity. Qed.

Lemma run_hasSet (evs : list (Window * Event)) (s : State) :
  hasSet (mutResolution s) = true ->
  hasSet (mutResolution (run evs s)) = true
  /\ (Forall (fun we => callsSet (snd we) = false) evs ->
      mutResolution (run evs s) = mutResolution s).
Proof.
  revert s. induction evs as [|[w e] evs IH]; intros s H.
  - cbn. auto.
  - change (run ((w, e) :: evs) s) with (run evs (step w e s)).
    destruct (step_hasSet w e s H) as [H1 H2].
    destruct (IH _ H1) as [I1 I2]. split; [exact I1|].
    intros F. inversion F as [|? ? Fe Fevs]; subst.
    rewrite I2 by exact Fevs. apply H2. exact Fe.
Qed.

(** C3.  Once [mutResolution.set(value)] has run, [hasSet] stays true
    whatever happens next, so no later [updateDeviceSize], whatever its
    environment and arguments, changes the multiplier; and as long as no
    further event calls [set], the multiplier is still [value]. *)
Theorem set_disables_step_down (w : Window) (value : Q) (s : State)
    (evs : list (Window * Event)) :
  let s' := run evs (resolution_set w value s) in
  hasSet (mutResolution s') = true
  /\ (forall w' opts, mutResolution (updateDeviceSize w' opts s') = mutResolution s')
  /\ (Forall (fun we => callsSet (snd we) = false) evs ->
      mutResolution s' = {| resolution := value; hasSet := true |}).
Proof.
  assert (S1 : mutResolution (resolution_set w value s)
               = {| resolution := value; hasSet := true |}).
  { unfold resolution_set. cbn [mutResolution set_storage].
    rewrite updateDeviceSize_hasSet; reflexivity. }
  assert (H1 : hasSet (mutResolution (resolution_set w value s)) = true)
    by (rewrite S1; reflexivity).
  destruct (run_hasSet evs _ H1) as [R1 R2].
  cbn zeta. split; [exact R1|]. split.
  - intros w' opts. apply updateDeviceSize_hasSet, R1.
  - intros F. rewrite R2 by exact F. exact S1.
Qed.

(** ** The automatic step-down *)

Lemma inject_nat_zero : inject_Z (Z.of_nat 0) == 0.
Proof. reflexivity. Qed.

Lemma canvasBuffer_proper (w : Window) (d : DeviceSize) (r r' : Q) :
  r == r' -> canvasBuffer w d r = canvasBuffer w d r'.
Proof.
  intros H. unfold canvasBuffer. cbn zeta.
  rewrite (Qgtb_proper _ (deviceWidth d * orNumber (Some (devicePixelRatio w)) 1 * r')
             _ (fullWidth d * imageResolution options))
    by (rewrite ?H; reflexivity).
  destruct (Qgtb _ _); [reflexivity|].
  f_equal; apply Math_round_proper; rewrite H; reflexivity.
Qed.

Lemma pixelCount_proper (w : Window) (d : DeviceSize) (r r' : Q) :
  r == r' -> pixelCount w d r = pixelCount w d r'.
Proof.
  intros H. unfold pixelCount. rewrite (canvasBuffer_proper w d r r' H). reflexivity.
Qed.

Lemma overBudget_true (m p : Q) :
  maxPixels options = Some m -> overBudget p = true -> m < p.
Proof.
  intros M. unfold overBudget. rewrite M.
  intros H. apply andb_prop in H as [_ H]. apply Qgtb_true, H.
Qed.

Lemma overBudget_false (m p : Q) :
  maxPixels options = Some m -> ~ m == 0 -> overBudget p = false -> p <= m.
Proof.
  intros M N. unfold overBudget. rewrite M.
  destruct (Qeq_bool m 0) eqn:E; [apply Qeq_bool_iff in E; contradiction|].
  cbn. apply Qgtb_false.
Qed.

Lemma rebuild_canvas (w : Window) (s : State) :
  (canvasWidth (canvas (rebuild w s)), canvasHeight (canvas (rebuild w s)))
  = canvasBuffer w (size s) (resolution (mutResolution s)).
Proof.
  unfold rebuild. destruct (canvasBuffer _ _ _) as [cw ch]. reflexivity.
Qed.

(** The step-downs of one call, for any fuel that covers the multiplier.
    [sizeAt j] is the size on which the [j]-th test is made: the first
    test sees what [resized] left, every recursive call recomputes the
    size from the viewport. *)
Lemma step_downs_with_fuel (m : Q) (n : nat) :
  maxPixels options = Some m -> ~ m == 0 ->
  forall (w : Window) (opts : UpdateOpts) (s : State),
    10 * resolution (mutResolution s) <= inject_Z (Z.of_nat n) ->
    hasSet (mutResolution s) = false ->
    hasPrevDeviceSize s && optCleanup opts = false ->
    let r := resolution (mutResolution s) in
    let s' := updateDeviceSize_fuel n w opts s in
    let sizeAt (j : nat) :=
      match j with
      | O => size (resized w opts (detached s))
      | S _ => viewportDeviceSize w
      end in
    exists k : nat,
      resolution (mutResolution s') == r - inject_Z (Z.of_nat k) * (1 # 10)
      /\ hasSet (mutResolution s') = false
      /\ size s' = sizeAt k
      /\ (forall j : nat, (j < k)%nat ->
            3 # 20 < r - inject_Z (Z.of_nat j) * (1 # 10)
            /\ m < pixelCount w (sizeAt j) (r - inject_Z (Z.of_nat j) * (1 # 10)))
      /\ (pixelCount w (size s') (resolution (mutResolution s')) <= m
          \/ resolution (mutResolution s') <= 3 # 20)
      /\ ((0 < k)%nat -> 1 # 20 < resolution (mutResolution s'))
      /\ (canvasWidth (canvas s'), canvasHeight (canvas s'))
         = canvasBuffer w (size s') (resolution (mutResolution s')).
Proof.
  intros M N. induction n as [|n IH]; intros w opts s Hn HS HC; cbn zeta.
  - cbn [updateDeviceSize_fuel]. rewrite HC.
    destruct (beforeTest_frame w opts s) as (R & _).
    destruct (stepDownGuard _ _ _) eqn:G.
    + exfalso. unfold stepDownGuard in G.
      apply andb_prop in G as [_ G]. apply Qgtb_true in G. rewrite R in G.
      unfold Qle in Hn; cbn in Hn; unfold Qlt in G; cbn in G; lia.
    + exists O.
      destruct (rebuild_frame w (resized w opts (detached s))) as (Rr & Rs & _).
      rewrite rebuild_canvas, Rr, Rs, R.
      split; [rewrite inject_nat_zero; lra|].
      split; [exact HS|]. split; [reflexivity|].
      split; [intros j Hj; lia|].
      split; [|split; [intros Hk; lia | reflexivity]].
      unfold stepDownGuard in G. rewrite R, HS in G. cbn in G.
      rewrite andb_true_r in G. apply andb_false_iff in G as [G|G].
      * left. eapply overBudget_false; eauto.
      * right. apply Qgtb_false in G. lra.
  - cbn [updateDeviceSize_fuel]. rewrite HC.
    destruct (beforeTest_frame w opts s) as (R & _).
    destruct (stepDownGuard _ _ _) eqn:G.
    + unfold stepDownGuard in G. rewrite R in G.
      apply andb_prop in G as [G G3]. apply andb_prop in G as [G1 _].
      apply Qgtb_true in G3. apply (overBudget_true m) in G1; [|exact M].
      set (s1 := resized w opts (detached s)) in *.
      assert (HS1 : hasSet (mutResolution (stepDown s1)) = false)
        by (rewrite stepDown_hasSet, R; exact HS).
      assert (Hn1 : 10 * resolution (mutResolution (stepDown s1))
                    <= inject_Z (Z.of_nat n)).
      { rewrite stepDown_resolution, R. rewrite inject_nat_succ in Hn. lra. }
      assert (HC1 : hasPrevDeviceSize (stepDown s1) && optCleanup noOpts = false)
        by apply andb_false_r.
      destruct (IH w noOpts (stepDown s1) Hn1 HS1 HC1)
        as (k & K1 & K2 & K3 & K4 & K5 & K6 & K7).
      rewrite beforeTest_size in K3, K4. cbn [optDidScroll noOpts andb] in K3, K4.
      rewrite stepDown_resolution, R in K1, K4.
      exists (S k).
      split; [rewrite K1, inject_nat_succ; lra|].
      split; [exact K2|].
      split; [rewrite K3; destruct k; reflexivity|].
      split.
      { intros j Hj. destruct j as [|j].
        - split; [rewrite inject_nat_zero; lra|].
          erewrite pixelCount_proper; [exact G1|]. rewrite inject_nat_zero. lra.
        - destruct (K4 j ltac:(lia)) as [A B]. split.
          + rewrite inject_nat_succ. lra.
          + erewrite pixelCount_proper.
            * destruct j; exact B.
            * rewrite inject_nat_succ. lra. }
      split; [exact K5|].
      split; [|exact K7].
      intros _. destruct k as [|k].
      * rewrite K1, inject_nat_zero. lra.
      * apply K6. lia.
    + exists O.
      destruct (rebuild_frame w (resized w opts (detached s))) as (Rr & Rs & _).
      rewrite rebuild_canvas, Rr, Rs, R.
      split; [rewrite inject_nat_zero; lra|].
      split; [exact HS|]. split; [reflexivity|].
      split; [intros j Hj; lia|].
      split; [|split; [intros Hk; lia | reflexivity]].
      unfold stepDownGuard in G. rewrite R, HS in G. cbn in G.
      rewrite andb_true_r in G. apply andb_false_iff in G as [G|G].
      * left. eapply overBudget_false; eauto.
      * right. apply Qgtb_false in G. lra.
Qed.

(** C2 (amended).  With a pixel budget [m] and no user override, one call
    of [updateDeviceSize] (other than the early return of a clean-up)
    performs some number [k] of step-downs: the multiplier ends at
    [r - k/10], so each step takes off exactly 0.1; every step was taken
    with the multiplier above 0.15 and the projected pixel count above
    the budget; the call ends with the pixel count within the budget or
    the multiplier at most 0.15, and that buffer is what the canvas gets.
    The multiplier after a step is above 0.05: a step taken from just
    above 0.15 ends below 0.15. *)
Theorem step_down_sequence (m : Q) (w : Window) (opts : UpdateOpts) (s : State) :
  maxPixels options = Some m -> ~ m == 0 ->
  hasSet (mutResolution s) = false ->
  hasPrevDeviceSize s && optCleanup opts = false ->
  let r := resolution (mutResolution s) in
  let s' := updateDeviceSize w opts s in
  let sizeAt (j : nat) :=
    match j with
    | O => size (resized w opts (detached s))
    | S _ => viewportDeviceSize w
    end in
  exists k : nat,
    resolution (mutResolution s') == r - inject_Z (Z.of_nat k) * (1 # 10)
    /\ hasSet (mutResolution s') = false
    /\ size s' = sizeAt k
    /\ (forall j : nat, (j < k)%nat ->
          3 # 20 < r - inject_Z (Z.of_nat j) * (1 # 10)
          /\ m < pixelCount w (sizeAt j) (r - inject_Z (Z.of_nat j) * (1 # 10)))
    /\ (pixelCount w (size s') (resolution (mutResolution s')) <= m
        \/ resolution (mutResolution s') <= 3 # 20)
    /\ ((0 < k)%nat -> 1 # 20 < resolution (mutResolution s'))
    /\ (canvasWidth (canvas s'), canvasHeight (canvas s'))
       = canvasBuffer w (size s') (resolution (mutResolution s')).
Proof.
  intros M N HS HC.
  apply (step_downs_with_fuel m _ M N w opts s); auto using stepBound_enough.
Qed.

(** ** What [updateDeviceSize] leaves alone *)

Lemma updateDeviceSize_fuel_frame (n : nat) :
  forall (w : Window) (opts : UpdateOpts) (s : State),
    let s' := updateDeviceSize_fuel n w opts s in
    clock s' = clock s /\ isCleanedUp s' = isCleanedUp s
    /\ storage s' = storage s
    /\ elapsedTimes (calls s') = elapsedTimes (calls s)
    /\ hasSet (mutResolution s') = hasSet (mutResolution s)
    /\ pointerEvents s' = pointerEvents s.
Proof.
  assert (D : forall s, clock (detached s) = clock s
                        /\ isCleanedUp (detached s) = isCleanedUp s
                        /\ storage (detached s) = storage s
                        /\ elapsedTimes (calls (detached s)) = elapsedTimes (calls s)
                        /\ hasSet (mutResolution (detached s)) = hasSet (mutResolution s)
                        /\ pointerEvents (detached s) = pointerEvents s).
  { intros s. unfold detached. destruct (hasPrevDeviceSize s); [|auto 10].
    destruct (removePointerListeners_frame s) as (-> & _ & _ & -> & -> & -> & -> & ->).
    auto 10. }
  assert (B : forall w opts s,
             let s1 := resized w opts (detached s) in
             clock s1 = clock s /\ isCleanedUp s1 = isCleanedUp s
             /\ storage s1 = storage s
             /\ elapsedTimes (calls s1) = elapsedTimes (calls s)
             /\ hasSet (mutResolution s1) = hasSet (mutResolution s)
             /\ pointerEvents s1 = pointerEvents s).
  { intros w opts s. cbn zeta.
    destruct (beforeTest_frame w opts s) as (-> & _ & -> & -> & -> & -> & ->).
    auto 10. }
  induction n as [|n IH]; intros w opts s; cbn zeta; cbn [updateDeviceSize_fuel];
    (destruct (hasPrevDeviceSize s && optCleanup opts); [apply D|]);
    (destruct (stepDownGuard _ _ _);
     [| destruct (rebuild_frame w (resized w opts (detached s)))
          as (-> & _ & _ & -> & -> & -> & -> & ->); apply B]).
  - apply (B w opts s).
  - destruct (IH w noOpts (stepDown (resized w opts (detached s))))
      as (-> & -> & -> & -> & -> & ->).
    apply (B w opts s).
Qed.

Lemma updateDeviceSize_frame (w : Window) (opts : UpdateOpts) (s : State) :
  let s' := updateDeviceSize w opts s in
  clock s' = clock s /\ isCleanedUp s' = isCleanedUp s
  /\ storage s' = storage s
  /\ elapsedTimes (calls s') = elapsedTimes (calls s)
  /\ hasSet (mutResolution s') = hasSet (mutResolution s)
  /\ pointerEvents s' = pointerEvents s.
Proof. apply updateDeviceSize_fuel_frame. Qed.

(** ** The frame clock *)

Lemma one_sixtieth : 1 / 60 == 1 # 60.
Proof. reflexivity. Qed.

(** A frame after [cleanup] does nothing at all. *)
Lemma newWebFrame_cleaned (b e : bool) (t : Q) (s : State) :
  isCleanedUp s = true -> newWebFrame b e t s = s.
Proof. intros H. unfold newWebFrame. rewrite H. reflexivity. Qed.


(** A frame while the page is visible. *)
Lemma newWebFrame_visible (b e : bool) (t : Q) (s : State) :
  isCleanedUp s = false -> isPageVisible (clock s) = true ->
  let c := clock s in
  let init := match initTime c with Some i => i | None => t - 1 / 60 end in
  let total :=
    if needsToUpdateNotVisibleTime c
    then totalPageNotVisibleTime c + (t - lastPageNotVisibleTime c)
    else totalPageNotVisibleTime c in
  let s' := newWebFrame b e t s in
  clock s' = {| isPageVisible := true; lastTimeValue := t;
                needsToUpdateNotVisibleTime := false;
                lastPageNotVisibleTime := lastPageNotVisibleTime c;
                totalPageNotVisibleTime := total; initTime := Some init |}
  /\ elapsedTimes (calls s') = elapsedTimes (calls s) ++ [t - init - total]
  /\ isCleanedUp s' = false.
Proof.
  destruct s as [? ? [v ? n ? ? i] ? ? ? ? ? ? ? ? ? cu cs].
  cbn. intros -> ->. unfold newWebFrame, loop. cbn.
  destruct b, e, i, n; cbn; rewrite ?elapsedTimes_app; cbn;
    rewrite ?app_nil_r; auto.
Qed.

(** The visibility handler never hands anything to the engine. *)
Lemma handlePageVisible_clock (hidden : bool) (s : State) :
  let c := clock s in
  let s' := handlePageVisible hidden s in
  clock s' =
    {| isPageVisible := negb hidden;
       lastTimeValue := lastTimeValue c;
       needsToUpdateNotVisibleTime :=
         if negb hidden && negb (isPageVisible c) then true
         else needsToUpdateNotVisibleTime c;
       lastPageNotVisibleTime :=
         if hidden && isPageVisible c then lastTimeValue c
         else lastPageNotVisibleTime c;
       totalPageNotVisibleTime := totalPageNotVisibleTime c;
       initTime := initTime c |}
  /\ elapsedTimes (calls s') = elapsedTimes (calls s)
  /\ isCleanedUp s' = isCleanedUp s.
Proof.
  destruct s as [? ? [v ? n ? ? i] ? ? ? ? ? ? ? ? ? cu cs].
  unfold handlePageVisible. cbn.
  destruct hidden, v; cbn; rewrite ?elapsedTimes_app; cbn;
    rewrite ?app_nil_r; auto.
Qed.








(** ** Start-up *)

Lemma documentAdd_frame (ev : string) (h : Handler) (s : State) :
  let s' := documentAdd ev h s in
  clock s' = clock s /\ calls s' = calls s /\ isCleanedUp s' = isCleanedUp s
  /\ mutResolution s' = mutResolution s /\ storage s' = storage s.
Proof. cbn. auto. Qed.

(** What [renderCanvas] hands over when it starts: the clock as
    declared, nothing given to the engine yet, no override, and the
    pending promise holding what the store had under [RESOLUTION_KEY]. *)
Lemma launch_frame (w : Window) (s : State) :
  initTime (clock s) = None ->
  let s' := launch w s in
  clock s' = clock s /\ elapsedTimes (calls s') = elapsedTimes (calls s)
  /\ isCleanedUp s' = isCleanedUp s
  /\ hasSet (mutResolution s') = hasSet (mutResolution s)
  /\ storage s' = storage s.
Proof.
  intros I. cbn zeta. unfold launch.
  destruct (_ || _).
  - cbn [clock calls isCleanedUp mutResolution storage call].
    rewrite elapsedTimes_app, app_nil_r. auto.
  - destruct (updateDeviceSize_frame w noOpts s) as (K1 & K2 & K3 & K4 & K5 & _).
    unfold loop. destruct (statsEnd options);
      cbn [clock calls isCleanedUp mutResolution storage call set_clock];
      rewrite ?elapsedTimes_app, ?app_nil_r, K1, K2, K3, K4, K5;
      (split; [destruct (clock s); cbn in I |- *; rewrite I; reflexivity | auto]).
Qed.

Lemma renderCanvas_started (w : Window) (doc : list Listener)
    (store : gmap string string) (s : State) (stored : option string) :
  renderCanvas w doc store = Started s stored ->
  clock s = {| isPageVisible := true; lastTimeValue := 0;
               needsToUpdateNotVisibleTime := false;
               lastPageNotVisibleTime := 0; totalPageNotVisibleTime := 0;
               initTime := None |}
  /\ elapsedTimes (calls s) = []
  /\ isCleanedUp s = false
  /\ hasSet (mutResolution s) = false
  /\ storage s = store
  /\ stored = store !! RESOLUTION_KEY.
Proof.
  unfold renderCanvas.
  destruct (webgl w); [|discriminate].
  destruct (angleInstancedArrays w); [|discriminate].
  destruct (oesVertexArrayObject w); [|discriminate].
  cbn [negb]. intros H. injection H as <- <-.
  match goal with
  | |- context [launch w ?s0] =>
      destruct (launch_frame w s0 eq_refl) as (-> & -> & -> & -> & ->)
  end.
  repeat split.
Qed.


(** The first frame of a platform that has just started hands over
    exactly [1 / 60]. *)
Lemma first_frame_after_start (w : Window) (doc : list Listener)
    (store : gmap string string) (s : State) (stored : option string)
    (w' : Window) (t : Q) :
  renderCanvas w doc store = Started s stored ->
  let s' := step w' (AnimationFrame t) s in
  initTime (clock s') = Some (t - 1 / 60)
  /\ exists e, elapsedTimes (calls s') = [e] /\ e == 1 / 60.
Proof.
  intros HS. destruct (renderCanvas_started _ _ _ _ _ HS) as (K & E & CU & _).
  cbn zeta. cbn [step].
  assert (V : isPageVisible (clock s) = true) by (rewrite K; reflexivity).
  destruct (newWebFrame_visible (statsBegin options) (statsEnd options) t s CU V)
    as (K' & E' & _).
  cbn zeta in K', E'. rewrite K', E', E, K. cbn.
  split; [reflexivity|]. eexists. split; [reflexivity|].
  rewrite one_sixtieth. lra.
Qed.

(** ** A gap in visibility *)




(** ** Pointer release *)

Lemma app_singleton_assoc {A : Type} (l : list A) (a : A) (k : list A) :
  (l ++ [a]) ++ k = l ++ a :: k.
Proof. rewrite <- app_assoc. reflexivity. Qed.

(** C6.  On a pointer-up or touch-end event the dispatcher makes exactly
    one call per release point, in order: [pointerCancelHandler] with the
    point's identifier when the converted point is outside the game,
    [pointerUpHandler] with the converted coordinates and the identifier
    otherwise.  A pointer event carries one point ([clientX], [clientY],
    [pointerId]); a touch event carries [changedTouches]. *)
Theorem pointerUp_dispatch (cl : Closures) (s : State) :
  (forall (cx cy : Q) (id : Z),
      calls (pointerUp cl (PointerEv cx cy id) s)
      = calls s
        ++ [if isPointerOutsideGame (size s) (getX cl cx) (getY cl cy)
            then PointerCancelCall id
            else PointerUpCall (getX cl cx) (getY cl cy) id])
  /\ (forall touches : list Touch,
        calls (pointerUp cl (TouchEv touches) s)
        = calls s
          ++ map (fun touch =>
                    if isPointerOutsideGame (size s)
                         (getX cl (screenX touch)) (getY cl (screenY touch))
                    then PointerCancelCall (identifier touch)
                    else PointerUpCall (getX cl (screenX touch))
                           (getY cl (screenY touch)) (identifier touch))
               touches).
Proof.
  split.
  - intros cx cy id. cbn. destruct (isPointerOutsideGame _ _ _); reflexivity.
  - intros touches. cbn [pointerUp].
    set (f := fun (s : State) (touch : Touch) =>
                let x := getX cl (screenX touch) in
                let y := getY cl (screenY touch) in
                if isPointerOutsideGame (size s) x y
                then call (PointerCancelCall (identifier touch)) s
                else call (PointerUpCall x y (identifier touch)) s).
    set (g := fun touch : Touch =>
                if isPointerOutsideGame (size s)
                     (getX cl (screenX touch)) (getY cl (screenY touch))
                then PointerCancelCall (identifier touch)
                else PointerUpCall (getX cl (screenX touch))
                       (getY cl (screenY touch)) (identifier touch)).
    assert (F : forall s0 a, size s0 = size s ->
                  size (f s0 a) = size s /\ calls (f s0 a) = calls s0 ++ [g a]).
    { intros s0 a H0. unfold f, g. cbn zeta. rewrite H0.
      destruct (isPointerOutsideGame _ _ _); cbn [size calls call]; auto. }
    assert (G : forall ts s0, size s0 = size s ->
                  calls (fold_left f ts s0) = calls s0 ++ map g ts).
    { induction ts as [|a ts IH]; intros s0 H0; cbn [fold_left map].
      - rewrite app_nil_r. reflexivity.
      - destruct (F s0 a H0) as [F1 F2].
        rewrite (IH _ F1), F2. apply app_singleton_assoc. }
    apply G. reflexivity.
Qed.

(** Inside the game means within half the width plus the margin on both
    sides, and the same vertically. *)
Lemma isPointerOutsideGame_false (d : DeviceSize) (x y : Q) :
  isPointerOutsideGame d x y = false
  <-> (- width d / 2 - widthMargin d <= x <= width d / 2 + widthMargin d
       /\ - height d / 2 - heightMargin d <= y <= height d / 2 + heightMargin d).
Proof.
  unfold isPointerOutsideGame, Qltb. rewrite !orb_false_iff, !Qgtb_false.
  rewrite !negb_false_iff, !Qle_bool_iff. tauto.
Qed.

(** ** Clean-up *)

(** After [cleanup] the flag is set, so a frame that still arrives
    returns at once: nothing is handed to the engine and no further frame
    is requested. *)
Lemma cleanup_makes_clock_inert (w : Window) (s : State) (t : Q) :
  isCleanedUp (cleanup w s) = true
  /\ newWebFrame (statsBegin options) (statsEnd options) t (cleanup w s) = cleanup w s.
Proof.
  assert (H : isCleanedUp (cleanup w s) = true).
  { unfold cleanup.
    match goal with
    | |- isCleanedUp (updateDeviceSize w ?o ?s0) = true =>
        destruct (updateDeviceSize_frame w o s0) as (_ & -> & _)
    end.
    destruct (userCanvas options); reflexivity. }
  split; [exact H | apply newWebFrame_cleaned, H].
Qed.

(** ** The stored device size *)

(** A call without [didScroll] ends with the size of the viewport. *)
Lemma updateDeviceSize_fuel_size (n : nat) :
  forall (w : Window) (opts : UpdateOpts) (s : State),
    hasPrevDeviceSize s && optCleanup opts = false ->
    optDidScroll opts && hasPrevDeviceSize s = false ->
    size (updateDeviceSize_fuel n w opts s) = viewportDeviceSize w.
Proof.
  induction n as [|n IH]; intros w opts s HC HD; cbn [updateDeviceSize_fuel];
    rewrite HC; pose proof (beforeTest_size w opts s) as B; rewrite HD in B;
    destruct (stepDownGuard _ _ _).
  - exact B.
  - destruct (rebuild_frame w (resized w opts (detached s))) as (_ & -> & _). exact B.
  - apply IH; [apply andb_false_r | reflexivity].
  - destruct (rebuild_frame w (resized w opts (detached s))) as (_ & -> & _). exact B.
Qed.

(** A resize event, or any call before a size has been stored,
    recomputes [mutDevice.size] from the viewport and stores it as
    [prevDeviceSize]. *)
Lemma resize_recomputes_size (w : Window) (opts : UpdateOpts) (s : State) :
  optDidScroll opts && hasPrevDeviceSize s = false ->
  hasPrevDeviceSize s && optCleanup opts = false ->
  size (updateDeviceSize w opts s) = viewportDeviceSize w.
Proof.
  intros HD HC. apply updateDeviceSize_fuel_size; assumption.
Qed.

(** A scroll with a previous size keeps [mutDevice.size] when no
    step-down is due, and rebuilds closures and listeners. *)
Lemma scroll_keeps_size (w : Window) (s : State) :
  hasPrevDeviceSize s = true ->
  stepDownGuard w (size s) (mutResolution s) = false ->
  let s' := updateDeviceSize w {| optCleanup := false; optDidScroll := true |} s in
  size s' = size s /\ prevDeviceSize s' = Some (size s)
  /\ mutResolution s' = mutResolution s.
Proof.
  intros HP G. cbn zeta. rewrite updateDeviceSize_unfold. cbn [optCleanup optDidScroll].
  rewrite andb_false_r. cbn zeta.
  pose proof (beforeTest_size w {| optCleanup := false; optDidScroll := true |} s) as B.
  cbn [optDidScroll] in B. rewrite HP in B. cbn in B.
  destruct (beforeTest_frame w {| optCleanup := false; optDidScroll := true |} s)
    as (R & _).
  rewrite B, R, G.
  destruct (rebuild_frame w (resized w {| optCleanup := false; optDidScroll := true |}
                               (detached s))) as (-> & -> & -> & _).
  rewrite B. auto.
Qed.

(** A scroll with a previous size on which a step-down is due: the
    recursive call has no [didScroll], so the size is recomputed. *)
Lemma scroll_with_step_down_recomputes_size (w : Window) (s : State) :
  hasPrevDeviceSize s = true ->
  stepDownGuard w (size s) (mutResolution s) = true ->
  size (updateDeviceSize w {| optCleanup := false; optDidScroll := true |} s)
  = viewportDeviceSize w.
Proof.
  intros HP G. rewrite updateDeviceSize_unfold. cbn [optCleanup optDidScroll].
  rewrite andb_false_r. cbn zeta.
  pose proof (beforeTest_size w {| optCleanup := false; optDidScroll := true |} s) as B.
  cbn [optDidScroll] in B. rewrite HP in B. cbn in B.
  destruct (beforeTest_frame w {| optCleanup := false; optDidScroll := true |} s)
    as (R & _).
  rewrite B, R, G.
  apply resize_recomputes_size; [reflexivity | apply andb_false_r].
Qed.

(** ** Missing capabilities *)

(** C9.  If the WebGL context, the instanced-arrays extension or the
    vertex-array-object extension is missing, [renderCanvas] returns an
    [Error] value, the document's listeners are the ones it started with
    and no collaborator has been called: no listener was attached, no
    frame was requested, the engine was not created. *)
Theorem missing_capability_aborts (w : Window) (doc : list Listener)
    (store : gmap string string) :
  webgl w = false \/ angleInstancedArrays w = false \/ oesVertexArrayObject w = false ->
  exists message : string, renderCanvas w doc store = Error message doc [].
Proof.
  intros H. unfold renderCanvas.
  destruct (webgl w); [|eexists; reflexivity].
  destruct (angleInstancedArrays w); [|eexists; reflexivity].
  destruct (oesVertexArrayObject w); [|eexists; reflexivity].
  destruct H as [H|[H|H]]; discriminate H.
Qed.

(** ** The stored resolution *)

(** What one [mutResolution.set(r)] does. *)
Lemma resolution_set_effect (w : Window) (r : Q) (s : State) :
  let s' := resolution_set w r s in
  mutResolution s' = {| resolution := r; hasSet := true |}
  /\ size s' = viewportDeviceSize w
  /\ prevDeviceSize s' = Some (viewportDeviceSize w)
  /\ (canvasWidth (canvas s'), canvasHeight (canvas s'))
     = canvasBuffer w (viewportDeviceSize w) r
  /\ storage s' = <[RESOLUTION_KEY := JS_String r]> (storage s).
Proof.
  cbn zeta. unfold resolution_set.
  set (sa := set_mutResolution {| resolution := r; hasSet := true |} s).
  cbn [mutResolution size prevDeviceSize canvas storage set_storage].
  destruct (updateDeviceSize_frame w noOpts sa) as (_ & _ & -> & _).
  rewrite updateDeviceSize_unfold. cbn [optCleanup noOpts]. rewrite andb_false_r.
  cbn zeta.
  destruct (beforeTest_frame w noOpts sa) as (R & _).
  pose proof (beforeTest_size w noOpts sa) as B. cbn [optDidScroll noOpts andb] in B.
  rewrite stepDownGuard_hasSet by (rewrite R; reflexivity).
  destruct (rebuild_frame w (resized w noOpts (detached sa))) as (-> & -> & -> & _).
  rewrite rebuild_canvas, B, R. cbn. auto.
Qed.

(** C10 (amended).  [renderCanvas] asks the store for [RESOLUTION_KEY];
    let the store hold [v] there, and let the promise resolve after the
    events [evs0].  If [v] parses to a number [r], whatever its size, the
    callback goes through [mutResolution.set]: the multiplier is [r] and
    the override flag true, the device size is recomputed from the
    viewport and the canvas buffer from it, [String(r)] is written back
    under the key, and from then on the flag stays true, the multiplier
    changing only by further [set] calls.  If [v] parses to NaN the
    callback leaves the whole state as it is: multiplier and flag keep
    the values they had, the multiplier being whatever the launch left. *)
Theorem stored_resolution_applied (w0 : Window) (doc : list Listener)
    (store : gmap string string) (s0 : State) (stored : option string)
    (evs0 : list (Window * Event)) (w : Window) (v : string) :
  renderCanvas w0 doc store = Started s0 stored ->
  store !! RESOLUTION_KEY = Some v ->
  let s := run evs0 s0 in
  let s' := step w (StoredResolution stored) s in
  (forall r : Q, JS_Number v = Some r ->
      mutResolution s' = {| resolution := r; hasSet := true |}
      /\ size s' = viewportDeviceSize w
      /\ prevDeviceSize s' = Some (viewportDeviceSize w)
      /\ (canvasWidth (canvas s'), canvasHeight (canvas s'))
         = canvasBuffer w (viewportDeviceSize w) r
      /\ storage s' = <[RESOLUTION_KEY := JS_String r]> (storage s)
      /\ storage s' !! RESOLUTION_KEY = Some (JS_String r)
      /\ forall evs : list (Window * Event),
           hasSet (mutResolution (run evs s')) = true
           /\ (Forall (fun we => callsSet (snd we) = false) evs ->
               mutResolution (run evs s') = {| resolution := r; hasSet := true |}))
  /\ (JS_Number v = None -> s' = s).
Proof.
  intros HS HV.
  destruct (renderCanvas_started _ _ _ _ _ HS) as (_ & _ & _ & _ & _ & ->).
  rewrite HV. cbn zeta. cbn [step storedResolution]. split.
  - intros r HR. rewrite HR.
    destruct (resolution_set_effect w r (run evs0 s0)) as (A & B & C & D & E).
    cbn zeta in A, B, C, D, E.
    split; [exact A|]. split; [exact B|]. split; [exact C|]. split; [exact D|].
    split; [exact E|]. split; [rewrite E; apply lookup_insert_eq|].
    intros evs.
    assert (H : hasSet (mutResolution (resolution_set w r (run evs0 s0))) = true)
      by (rewrite A; reflexivity).
    destruct (run_hasSet evs _ H) as [R1 R2]. split; [exact R1|].
    intros F. rewrite R2 by exact F. exact A.
  - intros HR. rewrite HR. reflexivity.
Qed.

(** Without a pixel budget the launch leaves the multiplier at 1. *)
Lemma no_budget_no_step_down (w : Window) (opts : UpdateOpts) (s : State) :
  maxPixels options = None ->
  mutResolution (updateDeviceSize w opts s) = mutResolution s.
Proof.
  intros M. rewrite updateDeviceSize_unfold.
  destruct (hasPrevDeviceSize s && optCleanup opts).
  - unfold detached. destruct (hasPrevDeviceSize s); [|reflexivity].
    apply removePointerListeners_frame.
  - cbn zeta. destruct (beforeTest_frame w opts s) as (R & _).
    unfold stepDownGuard, overBudget. rewrite M. cbn.
    destruct (rebuild_frame w (resized w opts (detached s))) as (-> & _). exact R.
Qed.

(** * Further properties *)

(** From here on a proof may only use the parameters its statement names. *)
#[local] Set Default Proof Using "Type".

(** [tauto] and [set_solver] on a goal from which the parameters it does
    not mention have been cleared. *)
#[local] Ltac clear_params :=
  try clear JS_Number; try clear JS_String; try clear RESOLUTION_KEY;
  try clear getGameXToWebX; try clear getGameYToWebY;
  try clear clientXToGameX; try clear clientYToGameY;
  try clear options; try clear calculateDeviceSize;
  try clear GameSize; try clear Dimensions.
#[local] Ltac tauto' := clear_params; tauto.

(** ** Pointer down, move and cancel *)

(** X1.  A pointer-down outside the game clears the focus flag and calls
    no handler; inside the game it sets the flag and calls
    [pointerDownHandler] with the converted point.  A touch-start clears
    the flag first and then handles every changed touch: the touches
    inside the game are handed to [pointerDownHandler] in order, the
    others are skipped, and the flag ends true exactly when some touch
    was inside (so an event without touches clears it). *)
Theorem pointerDown_dispatch (cl : Closures) (s : State) :
  (forall (cx cy : Q) (id : Z),
      let s' := pointerDown cl (PointerEv cx cy id) s in
      if isPointerOutsideGame (size s) (getX cl cx) (getY cl cy)
      then isInFocus s' = false /\ calls s' = calls s
      else isInFocus s' = true
           /\ calls s' = calls s ++ [PointerDownCall (getX cl cx) (getY cl cy) id])
  /\ (forall touches : list Touch,
        let s' := pointerDown cl (TouchEv touches) s in
        isInFocus s' = existsb (touchInside cl (size s)) touches
        /\ calls s'
           = calls s
             ++ map (fun touch =>
                       PointerDownCall (getX cl (screenX touch))
                         (getY cl (screenY touch)) (identifier touch))
                  (List.filter (touchInside cl (size s)) touches)).
Proof.
  split.
  - intros cx cy id. cbn. destruct (isPointerOutsideGame _ _ _); auto.
  - intros touches. cbn zeta. cbn [pointerDown].
    set (f := fun (s : State) (touch : Touch) =>
                let x := getX cl (screenX touch) in
                let y := getY cl (screenY touch) in
                if isPointerOutsideGame (size s) x y then s
                else call (PointerDownCall x y (identifier touch))
                       (set_isInFocus true s)).
    set (g := fun touch : Touch =>
                PointerDownCall (getX cl (screenX touch))
                  (getY cl (screenY touch)) (identifier touch)).
    assert (G : forall ts s0, size s0 = size s ->
                  isInFocus (fold_left f ts s0)
                  = isInFocus s0 || existsb (touchInside cl (size s)) ts
                  /\ calls (fold_left f ts s0)
                     = calls s0 ++ map g (List.filter (touchInside cl (size s)) ts)).
    { induction ts as [|a ts IH]; intros s0 H0; cbn [fold_left existsb List.filter map].
      - rewrite orb_false_r, app_nil_r. auto.
      - assert (H1 : size (f s0 a) = size s).
        { unfold f. cbn zeta. destruct (isPointerOutsideGame _ _ _); exact H0. }
        destruct (IH _ H1) as [I1 I2]. rewrite I1, I2.
        unfold f, touchInside. cbn zeta. rewrite H0.
        destruct (isPointerOutsideGame _ _ _); cbn.
        + auto.
        + rewrite orb_true_r. split; [reflexivity|]. apply app_singleton_assoc. }
    destruct (G touches (set_isInFocus false s) eq_refl) as [G1 G2].
    rewrite G1, G2. auto.
Qed.

(** X2.  A pointer-move hands the converted point to
    [pointerMoveHandler] when it is inside the game and is dropped
    otherwise; a touch-move does so for every changed touch, in order.
    The focus flag is never changed by a move. *)
Theorem pointerMove_dispatch (cl : Closures) (s : State) :
  (forall (cx cy : Q) (id : Z),
      let s' := pointerMove cl (PointerEv cx cy id) s in
      isInFocus s' = isInFocus s
      /\ calls s'
         = calls s
           ++ (if isPointerOutsideGame (size s) (getX cl cx) (getY cl cy)
               then []
               else [PointerMoveCall (getX cl cx) (getY cl cy)]))
  /\ (forall touches : list Touch,
        let s' := pointerMove cl (TouchEv touches) s in
        isInFocus s' = isInFocus s
        /\ calls s'
           = calls s
             ++ map (fun touch =>
                       PointerMoveCall (getX cl (screenX touch))
                         (getY cl (screenY touch)))
                  (List.filter (touchInside cl (size s)) touches)).
Proof.
  split.
  - intros cx cy id. cbn.
    destruct (isPointerOutsideGame _ _ _); cbn; rewrite ?app_nil_r; auto.
  - intros touches. cbn zeta. cbn [pointerMove].
    set (f := fun (s : State) (touch : Touch) =>
                let x := getX cl (screenX touch) in
                let y := getY cl (screenY touch) in
                if isPointerOutsideGame (size s) x y then s
                else call (PointerMoveCall x y) s).
    set (g := fun touch : Touch =>
                PointerMoveCall (getX cl (screenX touch)) (getY cl (screenY touch))).
    assert (G : forall ts s0, size s0 = size s ->
                  isInFocus (fold_left f ts s0) = isInFocus s0
                  /\ calls (fold_left f ts s0)
                     = calls s0 ++ map g (List.filter (touchInside cl (size s)) ts)).
    { induction ts as [|a ts IH]; intros s0 H0; cbn [fold_left List.filter map].
      - rewrite app_nil_r. auto.
      - assert (H1 : size (f s0 a) = size s).
        { unfold f. cbn zeta. destruct (isPointerOutsideGame _ _ _); exact H0. }
        destruct (IH _ H1) as [I1 I2]. rewrite I1, I2.
        unfold f, touchInside. cbn zeta. rewrite H0.
        destruct (isPointerOutsideGame _ _ _); cbn.
        + auto.
        + split; [reflexivity|]. apply app_singleton_assoc. }
    apply G. reflexivity.
Qed.

(** X3.  A pointer-cancel or touch-cancel calls [pointerCancelHandler]
    for the identifier of every point it carries, in order, wherever the
    points are; nothing else changes. *)
Theorem pointerCancel_dispatch (s : State) :
  (forall (cx cy : Q) (id : Z),
      pointerCancel (PointerEv cx cy id) s = call (PointerCancelCall id) s)
  /\ (forall touches : list Touch,
        let s' := pointerCancel (TouchEv touches) s in
        calls s' = calls s ++ map (fun touch => PointerCancelCall (identifier touch)) touches
        /\ isInFocus s' = isInFocus s /\ size s' = size s /\ clock s' = clock s
        /\ listeners s' = listeners s /\ mutResolution s' = mutResolution s).
Proof.
  split; [reflexivity|].
  intros touches. cbn zeta. cbn [pointerCancel].
  revert s. induction touches as [|a ts IH]; intros s; cbn [fold_left map].
  - rewrite app_nil_r. auto 10.
  - destruct (IH (call (PointerCancelCall (identifier a)) s))
      as (-> & -> & -> & -> & -> & ->).
    cbn. split; [apply app_singleton_assoc | auto 10].
Qed.

(** ** Keyboard *)

(** X4.  The focus flag set by the last pointer-down gates the keyboard:
    after a pointer-down outside the game key-down and key-up events are
    dropped; after one inside the game a key-down is forwarded unless it
    is an auto-repeat, and a key-up is forwarded. *)
Theorem focus_gates_keyboard (cl : Closures) (s : State) (cx cy : Q) (id : Z)
    (key : string) :
  let s1 := pointerDown cl (PointerEv cx cy id) s in
  if isPointerOutsideGame (size s) (getX cl cx) (getY cl cy)
  then (forall repeat : bool, keyDownHandler key repeat s1 = s1)
       /\ keyUpHandler key s1 = s1
  else keyDownHandler key true s1 = s1
       /\ keyDownHandler key false s1 = call (KeyDownCall key) s1
       /\ keyUpHandler key s1 = call (KeyUpCall key) s1.
Proof.
  cbn. destruct (isPointerOutsideGame _ _ _); cbn; auto.
Qed.

(** ** Visibility *)

(** X5.  A visibility change that reports the state the page is already
    in changes nothing.  Losing visibility suspends the audio context
    once and records the time of the last frame that ran; regaining it
    starts the audio restart and marks the gap as pending; neither hands
    anything to the engine. *)
Theorem visibility_change_effects (s : State) :
  handlePageVisible (negb (isPageVisible (clock s))) s = s
  /\ (isPageVisible (clock s) = true ->
      let s' := handlePageVisible true s in
      calls s' = calls s ++ [AudioSuspend]
      /\ lastPageNotVisibleTime (clock s') = lastTimeValue (clock s)
      /\ isPageVisible (clock s') = false
      /\ needsToUpdateNotVisibleTime (clock s') = needsToUpdateNotVisibleTime (clock s))
  /\ (isPageVisible (clock s) = false ->
      let s' := handlePageVisible false s in
      calls s' = calls s ++ [AudioRestartTimers]
      /\ needsToUpdateNotVisibleTime (clock s') = true
      /\ isPageVisible (clock s') = true
      /\ lastPageNotVisibleTime (clock s') = lastPageNotVisibleTime (clock s)).
Proof.
  destruct s as [? ? [v ? n ? ? i] ? ? ? ? ? ? ? ? ? cu cs].
  unfold handlePageVisible. cbn.
  split; [destruct v; reflexivity|].
  split; intros ->; cbn; auto.
Qed.

(** ** The frame loop *)

(** X6.  Every frame callback of a platform that was not cleaned up
    requests exactly one further frame, whether the page is visible or
    not; after clean-up it requests none.  The loop neither stops nor
    multiplies. *)
Theorem frame_requests_one_frame (b e : bool) (t : Q) (s : State) :
  frameRequests (calls (newWebFrame b e t s))
  = if isCleanedUp s then frameRequests (calls s) else S (frameRequests (calls s)).
Proof.
  destruct s as [? ? [v ? n ? ? i] ? ? ? ? ? ? ? ? ? cu cs].
  unfold newWebFrame, loop, frameRequests. cbn.
  destruct cu; [reflexivity|].
  destruct b, e, i, v, n; cbn;
    rewrite ?flat_map_app, ?length_app; cbn; lia.
Qed.


(** ** What only frames do *)

Lemma quiet_refl (s : State) : quiet s s.
Proof. unfold quiet. auto. Qed.

Lemma quiet_trans (s1 s2 s3 : State) : quiet s1 s2 -> quiet s2 s3 -> quiet s1 s3.
Proof.
  unfold quiet. intros (A1 & A2 & A3) (B1 & B2 & B3).
  rewrite B1, B2, B3. auto.
Qed.

Lemma call_quiet (c : Call) (s : State) :
  match c with RunNextFrame _ => False | _ => True end -> quiet s (call c s).
Proof.
  intros H. unfold quiet. cbn. rewrite elapsedTimes_app.
  destruct c; try contradiction; cbn; rewrite app_nil_r; auto.
Qed.

Lemma set_isInFocus_quiet (b : bool) (s : State) : quiet s (set_isInFocus b s).
Proof. unfold quiet. auto. Qed.

Lemma fold_left_quiet {A : Type} (f : State -> A -> State) (l : list A) (s : State) :
  (forall s' a, quiet s' (f s' a)) -> quiet s (fold_left f l s).
Proof.
  intros H.
  apply (fold_left_invariant (fun s' => quiet s s')); [|apply quiet_refl].
  intros s' a Q. eapply quiet_trans; [exact Q | apply H].
Qed.

Lemma pointerDown_quiet (cl : Closures) (e : PointerInput) (s : State) :
  quiet s (pointerDown cl e s).
Proof.
  destruct e as [x y id | touches]; cbn [pointerDown].
  - cbn zeta. destruct (isPointerOutsideGame _ _ _).
    + apply set_isInFocus_quiet.
    + eapply quiet_trans; [apply set_isInFocus_quiet | apply call_quiet; exact I].
  - eapply quiet_trans; [apply (set_isInFocus_quiet false)|].
    apply fold_left_quiet. intros s' a. cbn zeta.
    destruct (isPointerOutsideGame _ _ _); [apply quiet_refl|].
    eapply quiet_trans; [apply set_isInFocus_quiet | apply call_quiet; exact I].
Qed.

Lemma pointerMove_quiet (cl : Closures) (e : PointerInput) (s : State) :
  quiet s (pointerMove cl e s).
Proof.
  destruct e as [x y id | touches]; cbn [pointerMove].
  - cbn zeta. destruct (isPointerOutsideGame _ _ _);
      [apply quiet_refl | apply call_quiet; exact I].
  - apply fold_left_quiet. intros s' a. cbn zeta.
    destruct (isPointerOutsideGame _ _ _);
      [apply quiet_refl | apply call_quiet; exact I].
Qed.

Lemma pointerUp_quiet (cl : Closures) (e : PointerInput) (s : State) :
  quiet s (pointerUp cl e s).
Proof.
  destruct e as [x y id | touches]; cbn [pointerUp].
  - cbn zeta. destruct (isPointerOutsideGame _ _ _); apply call_quiet; exact I.
  - apply fold_left_quiet. intros s' a. cbn zeta.
    destruct (isPointerOutsideGame _ _ _); apply call_quiet; exact I.
Qed.

Lemma pointerCancel_quiet (e : PointerInput) (s : State) :
  quiet s (pointerCancel e s).
Proof.
  destruct e as [x y id | touches]; cbn [pointerCancel].
  - apply call_quiet; exact I.
  - apply fold_left_quiet. intros s' a. apply call_quiet; exact I.
Qed.

Lemma updateDeviceSize_quiet (w : Window) (opts : UpdateOpts) (s : State) :
  quiet s (updateDeviceSize w opts s).
Proof.
  destruct (updateDeviceSize_frame w opts s) as (A & B & _ & C & _).
  unfold quiet. auto.
Qed.

Lemma resolution_set_quiet (w : Window) (r : Q) (s : State) :
  quiet s (resolution_set w r s).
Proof.
  unfold resolution_set.
  destruct (updateDeviceSize_quiet w noOpts
              (set_mutResolution {| resolution := r; hasSet := true |} s))
    as (A & B & C).
  unfold quiet. cbn [clock calls isCleanedUp set_storage]. rewrite A, B, C. auto.
Qed.

Lemma launch_engine (w : Window) (s : State) :
  elapsedTimes (calls (launch w s)) = elapsedTimes (calls s)
  /\ isCleanedUp (launch w s) = isCleanedUp s.
Proof.
  unfold launch. destruct (_ || _).
  - cbn. rewrite elapsedTimes_app, app_nil_r. auto.
  - destruct (updateDeviceSize_quiet w noOpts s) as (_ & B & C).
    unfold loop. destruct (statsEnd options);
      cbn [calls isCleanedUp call set_clock];
      rewrite ?elapsedTimes_app, ?app_nil_r, B, C; auto.
Qed.

Lemma cleanup_engine (w : Window) (s : State) :
  clock (cleanup w s) = clock s
  /\ elapsedTimes (calls (cleanup w s)) = elapsedTimes (calls s)
  /\ isCleanedUp (cleanup w s) = true.
Proof.
  unfold cleanup.
  match goal with
  | |- context [updateDeviceSize w ?o ?s0] =>
      destruct (updateDeviceSize_quiet w o s0) as (-> & -> & ->)
  end.
  destruct (userCanvas options); cbn; auto.
Qed.

(** What one event may do to the clock, the clean-up flag and the
    engine. *)
Lemma step_effects (w : Window) (e : Event) (s : State) :
  match e with
  | AnimationFrame _ => True
  | _ => elapsedTimes (calls (step w e s)) = elapsedTimes (calls s)
  end
  /\ match e with
     | AnimationFrame _ | VisibilityChange _ | LaunchTimeout => True
     | _ => clock (step w e s) = clock s
     end
  /\ (isCleanedUp s = true -> isCleanedUp (step w e s) = true).
Proof.
  assert (Q1 : forall s', quiet s s' ->
                 elapsedTimes (calls s') = elapsedTimes (calls s)
                 /\ clock s' = clock s
                 /\ (isCleanedUp s = true -> isCleanedUp s' = true)).
  { intros s' (A & B & C). rewrite C. auto. }
  destruct e; cbn [step].
  - split; [exact I|]. split; [exact I|].
    intros CU. rewrite newWebFrame_cleaned; exact CU.
  - destruct (handlePageVisible_clock hidden s) as (_ & E & CU). rewrite CU. auto.
  - apply Q1, updateDeviceSize_quiet.
  - apply Q1, updateDeviceSize_quiet.
  - apply Q1. unfold keyDownHandler.
    destruct (_ || _); [apply quiet_refl | apply call_quiet; exact I].
  - apply Q1. unfold keyUpHandler.
    destruct (negb _); [apply quiet_refl | apply call_quiet; exact I].
  - apply Q1. destruct (pointerClosures s); [apply pointerDown_quiet | apply quiet_refl].
  - apply Q1. destruct (pointerClosures s); [apply pointerMove_quiet | apply quiet_refl].
  - apply Q1. destruct (pointerClosures s); [apply pointerUp_quiet | apply quiet_refl].
  - apply Q1. destruct (pointerClosures s); [apply pointerCancel_quiet | apply quiet_refl].
  - apply Q1. unfold onFirstInteraction, quiet.
    destruct (audioSuspended w); cbn [clock calls isCleanedUp call documentRemove
                                      set_listeners];
      rewrite ?elapsedTimes_app; cbn [elapsedTimes flat_map];
      rewrite ?app_nil_r; auto.
  - apply Q1, resolution_set_quiet.
  - apply Q1. unfold storedResolution.
    destruct value as [v|]; [|apply quiet_refl].
    destruct (JS_Number v); [apply resolution_set_quiet | apply quiet_refl].
  - destruct (launch_engine w s) as (A & B). rewrite A, B. auto.
  - destruct (cleanup_engine w s) as (A & B & C). auto.
Qed.

(** X8.  Only an animation frame hands an elapsed time to the engine,
    and only frames, visibility changes and the launch touch the clock:
    resize, scroll, keyboard, pointer and first-interaction events, a
    resolution change, the stored resolution and clean-up leave the
    clock variables as they are.  Nothing ever clears the clean-up
    flag. *)
Theorem events_and_the_clock (w : Window) (e : Event) (s : State) :
  match e with
  | AnimationFrame _ => True
  | _ => elapsedTimes (calls (step w e s)) = elapsedTimes (calls s)
  end
  /\ match e with
     | AnimationFrame _ | VisibilityChange _ | LaunchTimeout => True
     | _ => clock (step w e s) = clock s
     end
  /\ (isCleanedUp s = true -> isCleanedUp (step w e s) = true).
Proof. apply step_effects. Qed.

(** X9.  After [cleanup], whatever events still arrive (frames already
    requested, visibility changes, pointer or keyboard events whose
    listeners were not removed, a late launch timer, a resolution
    change), the engine is never called again and the flag stays set. *)
Theorem engine_silent_after_cleanup (w : Window) (s : State)
    (evs : list (Window * Event)) :
  let s' := run evs (cleanup w s) in
  isCleanedUp s' = true
  /\ elapsedTimes (calls s') = elapsedTimes (calls s).
Proof.
  assert (G : forall evs s0, isCleanedUp s0 = true ->
                isCleanedUp (run evs s0) = true
                /\ elapsedTimes (calls (run evs s0)) = elapsedTimes (calls s0)).
  { clear. induction evs as [|[w e] evs IH]; intros s0 CU; [auto|].
    change (run ((w, e) :: evs) s0) with (run evs (step w e s0)).
    destruct (step_effects w e s0) as (A & _ & C).
    destruct (IH _ (C CU)) as (I1 & I2). split; [exact I1|].
    rewrite I2. destruct e; try exact A.
    cbn [step]. rewrite newWebFrame_cleaned; [reflexivity | exact CU]. }
  destruct (cleanup_engine w s) as (_ & E & CU).
  destruct (G evs _ CU) as (G1 & G2). cbn zeta. rewrite G2. auto.
Qed.



(** ** The canvas buffer and the multiplier *)



Lemma overBudget_without_budget (p : Q) :
  maxPixels options = None \/ (exists m, maxPixels options = Some m /\ m == 0) ->
  overBudget p = false.
Proof.
  unfold overBudget. intros [-> | (m & -> & Z)]; [reflexivity|].
  apply Qeq_bool_iff in Z. rewrite Z. reflexivity.
Qed.

(** X13.  Without [maxPixels], or with [maxPixels] equal to 0 (which the
    test [maxPixels && ...] treats as absent), no call of
    [updateDeviceSize] changes the multiplier or the override flag. *)
Theorem no_budget_keeps_multiplier (w : Window) (opts : UpdateOpts) (s : State) :
  maxPixels options = None \/ (exists m, maxPixels options = Some m /\ m == 0) ->
  mutResolution (updateDeviceSize w opts s) = mutResolution s.
Proof.
  intros M. rewrite updateDeviceSize_unfold.
  destruct (hasPrevDeviceSize s && optCleanup opts).
  - unfold detached. destruct (hasPrevDeviceSize s); [|reflexivity].
    apply removePointerListeners_frame.
  - cbn zeta. destruct (beforeTest_frame w opts s) as (R & _).
    unfold stepDownGuard. rewrite overBudget_without_budget by exact M.
    cbn [andb].
    destruct (rebuild_frame w (resized w opts (detached s))) as (-> & _). exact R.
Qed.

(** The multiplier after any number of step-downs. *)
Lemma multiplier_after_fuel (n : nat) :
  forall (w : Window) (opts : UpdateOpts) (s : State),
    let r := resolution (mutResolution s) in
    let r' := resolution (mutResolution (updateDeviceSize_fuel n w opts s)) in
    exists k : nat,
      r' == r - inject_Z (Z.of_nat k) * (1 # 10)
      /\ ((0 < k)%nat -> 1 # 20 < r').
Proof.
  induction n as [|n IH]; intros w opts s; cbn zeta; cbn [updateDeviceSize_fuel].
  - destruct (hasPrevDeviceSize s && optCleanup opts).
    { exists O. split; [|lia].
      unfold detached. destruct (hasPrevDeviceSize s);
        [destruct (removePointerListeners_frame s) as (-> & _)|];
        rewrite inject_nat_zero; lra. }
    destruct (beforeTest_frame w opts s) as (R & _).
    destruct (stepDownGuard _ _ _) eqn:G.
    + unfold stepDownGuard in G. apply andb_prop in G as [_ G].
      apply Qgtb_true in G. rewrite R in G.
      exists 1%nat. rewrite stepDown_resolution, R.
      split; [|intros _; lra].
      change (inject_Z (Z.of_nat 1)) with 1. lra.
    + exists O. destruct (rebuild_frame w (resized w opts (detached s))) as (-> & _).
      rewrite R, inject_nat_zero. split; [lra | lia].
  - destruct (hasPrevDeviceSize s && optCleanup opts).
    { exists O. split; [|lia].
      unfold detached. destruct (hasPrevDeviceSize s);
        [destruct (removePointerListeners_frame s) as (-> & _)|];
        rewrite inject_nat_zero; lra. }
    destruct (beforeTest_frame w opts s) as (R & _).
    destruct (stepDownGuard _ _ _) eqn:G.
    + unfold stepDownGuard in G. apply andb_prop in G as [_ G].
      apply Qgtb_true in G. rewrite R in G.
      destruct (IH w noOpts (stepDown (resized w opts (detached s)))) as (k & K1 & K2).
      cbn zeta in K1, K2. rewrite stepDown_resolution, R in K1.
      exists (S k). split.
      * rewrite K1, inject_nat_succ. lra.
      * intros _. destruct k as [|k].
        -- rewrite K1, inject_nat_zero. lra.
        -- apply K2. lia.
    + exists O. destruct (rebuild_frame w (resized w opts (detached s))) as (-> & _).
      rewrite R, inject_nat_zero. split; [lra | lia].
Qed.

(** X12.  [updateDeviceSize] never raises the multiplier; a multiplier
    it lowered is above 0.05; and started from the initial 1 it ends at
    0.1 or above, after at most nine step-downs. *)
Theorem multiplier_bounds (w : Window) (opts : UpdateOpts) (s : State) :
  let r := resolution (mutResolution s) in
  let r' := resolution (mutResolution (updateDeviceSize w opts s)) in
  r' <= r
  /\ (r' == r \/ 1 # 20 < r')
  /\ (r == 1 ->
      1 # 10 <= r'
      /\ exists k : nat, (k <= 9)%nat /\ r' == 1 - inject_Z (Z.of_nat k) * (1 # 10)).
Proof.
  cbn zeta. unfold updateDeviceSize.
  destruct (multiplier_after_fuel (stepBound (resolution (mutResolution s))) w opts s)
    as (k & K1 & K2).
  cbn zeta in K1, K2.
  assert (P : 0 <= inject_Z (Z.of_nat k)).
  { change 0 with (inject_Z 0). rewrite <- Zle_Qle. lia. }
  split; [rewrite K1; lra|]. split.
  - destruct k as [|k]; [left; rewrite K1, inject_nat_zero; lra | right; apply K2; lia].
  - intros R1.
    assert (B : (k <= 9)%nat).
    { destruct k as [|k]; [lia|].
      assert (L : 1 # 20 < resolution
                    (mutResolution
                       (updateDeviceSize_fuel (stepBound (resolution (mutResolution s)))
                          w opts s))) by (apply K2; lia).
      rewrite K1, R1 in L.
      assert (L' : inject_Z (Z.of_nat (S k)) < inject_Z 10).
      { change (inject_Z 10) with 10.
        set (x := inject_Z (Z.of_nat (S k))) in *. lra. }
      rewrite <- Zlt_Qlt in L'. lia. }
    assert (B' : inject_Z (Z.of_nat k) <= inject_Z 9) by (rewrite <- Zle_Qle; lia).
    split.
    + rewrite K1, R1. change (inject_Z 9) with 9 in B'. lra.
    + exists k. split; [exact B|]. rewrite K1, R1. reflexivity.
Qed.

(** ** The pointer listeners *)

Lemma elem_of_addEventListener (l x : Listener) (ls : list Listener) :
  l ∈ addEventListener x ls <-> l = x \/ l ∈ ls.
Proof.
  unfold addEventListener. destruct (decide (x ∈ ls)) as [H|H].
  - split; [auto|]. intros [->|H']; assumption.
  - split.
    + intros M. apply elem_of_app in M as [M|M]; [right; exact M|].
      left. apply list_elem_of_singleton in M. exact M.
    + intros [->|M]; apply elem_of_app; [right | left; exact M].
      apply list_elem_of_singleton. reflexivity.
Qed.

Lemma elem_of_removeEventListener (l x : Listener) (ls : list Listener) :
  l ∈ removeEventListener x ls <-> l <> x /\ l ∈ ls.
Proof.
  unfold removeEventListener.
  exact (list_elem_of_filter (fun l' : Listener => l' <> x) ls l).
Qed.

Lemma elem_of_pointerListeners (s : State) (id : nat) (l : Listener) :
  l ∈ pointerListeners s id <->
  l = {| target := DocumentT; eventType := pointerDownEv s; handler := PointerDown id |}
  \/ l = {| target := DocumentT; eventType := pointerMoveEv s; handler := PointerMove id |}
  \/ l = {| target := DocumentT; eventType := pointerUpEv s; handler := PointerUp id |}
  \/ l = {| target := DocumentT; eventType := pointerCancelEv s;
            handler := PointerCancel id |}.
Proof.
  unfold pointerListeners.
  rewrite !elem_of_cons, elem_of_nil. tauto'.
Qed.

Lemma pointerListeners_are_pointer (s : State) (id : nat) (l : Listener) :
  l ∈ pointerListeners s id -> isPointerHandler (handler l) = true.
Proof.
  rewrite elem_of_pointerListeners. intros [-> | [-> | [-> | ->]]]; reflexivity.
Qed.

(** The listeners left by the removal at the start of
    [updateDeviceSize]: under the invariant, all but the pointer
    listeners. *)
Lemma detached_listeners (s : State) :
  pointerListenersCurrent s ->
  forall l : Listener,
    l ∈ listeners (detached s)
    <-> l ∈ listeners s /\ isPointerHandler (handler l) = false.
Proof.
  intros I l. unfold detached.
  destruct (hasPrevDeviceSize s) eqn:HP.
  - unfold removePointerListeners. destruct (pointerClosures s) as [cl|] eqn:PC.
    + cbn [listeners documentRemove set_listeners].
      rewrite !elem_of_removeEventListener. split.
      * intros (N4 & N3 & N2 & N1 & H). split; [exact H|].
        destruct (isPointerHandler (handler l)) eqn:P; [|reflexivity].
        destruct (I l H P) as (cl' & PC' & _ & M).
        rewrite PC in PC'. injection PC' as <-.
        apply elem_of_pointerListeners in M.
        destruct M as [-> | [-> | [-> | ->]]]; contradiction.
      * intros [H P].
        repeat split; try exact H; intros ->; discriminate P.
    + split.
      * intros H. split; [exact H|].
        destruct (isPointerHandler (handler l)) eqn:P; [|reflexivity].
        destruct (I l H P) as (cl' & PC' & _). rewrite PC in PC'. discriminate.
      * tauto'.
  - split.
    + intros H. split; [exact H|].
      destruct (isPointerHandler (handler l)) eqn:P; [|reflexivity].
      destruct (I l H P) as (cl' & _ & HP' & _). rewrite HP in HP'. discriminate.
    + tauto'.
Qed.

Lemma detached_vars (s : State) :
  nextClosure (detached s) = nextClosure s
  /\ pointerEvents (detached s) = pointerEvents s
  /\ pointerClosures (detached s) = pointerClosures s
  /\ prevDeviceSize (detached s) = prevDeviceSize s.
Proof.
  unfold detached, removePointerListeners.
  destruct (hasPrevDeviceSize s); [|auto].
  destruct (pointerClosures s) eqn:E; cbn; rewrite ?E; auto.
Qed.

Lemma resized_vars (w : Window) (opts : UpdateOpts) (s : State) :
  nextClosure (resized w opts s) = nextClosure s
  /\ pointerEvents (resized w opts s) = pointerEvents s
  /\ pointerClosures (resized w opts s) = pointerClosures s
  /\ listeners (resized w opts s) = listeners s.
Proof. unfold resized. destruct (negb _); cbn; auto. Qed.

Lemma pointerListeners_same_names (s s' : State) (id : nat) :
  pointerEvents s' = pointerEvents s -> pointerListeners s' id = pointerListeners s id.
Proof.
  intros H. unfold pointerListeners, pointerDownEv, pointerMoveEv, pointerUpEv,
    pointerCancelEv. rewrite H. reflexivity.
Qed.

(** What [rebuild] attaches and stores. *)
Lemma rebuild_listeners (w : Window) (s : State) :
  let s' := rebuild w s in
  (exists cl, pointerClosures s' = Some cl /\ closureId cl = nextClosure s)
  /\ nextClosure s' = S (nextClosure s)
  /\ prevDeviceSize s' = Some (size s')
  /\ pointerEvents s' = pointerEvents s
  /\ forall l : Listener,
       l ∈ listeners s' <-> l ∈ pointerListeners s (nextClosure s) \/ l ∈ listeners s.
Proof.
  cbn zeta. unfold rebuild. destruct (canvasBuffer _ _ _) as [cw ch].
  cbn [pointerClosures nextClosure prevDeviceSize pointerEvents listeners size
       set_rebuilt documentAdd set_listeners call set_canvas closureId].
  split; [eexists; split; reflexivity|].
  split; [reflexivity|]. split; [reflexivity|]. split; [reflexivity|].
  intros l. rewrite !elem_of_addEventListener, elem_of_pointerListeners.
  unfold pointerDownEv, pointerMoveEv, pointerUpEv, pointerCancelEv.
  cbn [pointerEvents set_listeners call set_canvas]. tauto'.
Qed.

(** One completed [updateDeviceSize], for any fuel that covers the
    multiplier: the pointer listeners of the previous closures are gone,
    those of the new closures are attached, every other listener is as
    before, and the size in use is stored as [prevDeviceSize]. *)
Lemma update_listeners_fuel (n : nat) :
  forall (w : Window) (opts : UpdateOpts) (s : State),
    10 * resolution (mutResolution s) <= inject_Z (Z.of_nat n) ->
    pointerListenersCurrent s ->
    hasPrevDeviceSize s && optCleanup opts = false ->
    let s' := updateDeviceSize_fuel n w opts s in
    (exists cl, pointerClosures s' = Some cl /\ closureId cl = nextClosure s)
    /\ nextClosure s' = S (nextClosure s)
    /\ prevDeviceSize s' = Some (size s')
    /\ pointerEvents s' = pointerEvents s
    /\ forall l : Listener,
         l ∈ listeners s'
         <-> l ∈ pointerListeners s (nextClosure s)
             \/ (l ∈ listeners s /\ isPointerHandler (handler l) = false).
Proof.
  induction n as [|n IH]; intros w opts s Hn I HC; cbn zeta;
    cbn [updateDeviceSize_fuel]; rewrite HC;
    destruct (beforeTest_frame w opts s) as (R & _);
    destruct (detached_vars s) as (D1 & D2 & D3 & D4);
    destruct (resized_vars w opts (detached s)) as (Z1 & Z2 & Z3 & Z4);
    pose proof (detached_listeners s I) as DL;
    destruct (stepDownGuard _ _ _) eqn:G.
  - exfalso. unfold stepDownGuard in G. apply andb_prop in G as [_ G].
    apply Qgtb_true in G. rewrite R in G.
    unfold Qle in Hn; cbn in Hn; unfold Qlt in G; cbn in G; lia.
  - destruct (rebuild_listeners w (resized w opts (detached s)))
      as (A & B & C & D & E). cbn zeta in A, B, C, D, E.
    rewrite Z1, D1 in A, B, E. rewrite Z2, D2 in D.
    rewrite (pointerListeners_same_names s (resized w opts (detached s)))
      in E by (rewrite Z2, D2; reflexivity).
    split; [exact A|]. split; [exact B|]. split; [exact C|]. split; [exact D|].
    intros l. rewrite E, Z4, DL. tauto'.
  - set (s2 := stepDown (resized w opts (detached s))) in *.
    assert (I2 : pointerListenersCurrent s2).
    { intros l H P. cbn in H. rewrite Z4 in H. apply DL in H as [_ H].
      rewrite H in P. discriminate. }
    assert (Hn2 : 10 * resolution (mutResolution s2) <= inject_Z (Z.of_nat n)).
    { unfold s2. rewrite stepDown_resolution, R.
      unfold stepDownGuard in G. rewrite inject_nat_succ in Hn. lra. }
    destruct (IH w noOpts s2 Hn2 I2 (andb_false_r _)) as (A & B & C & D & E).
    cbn zeta in A, B, C, D, E.
    assert (N2 : nextClosure s2 = nextClosure s) by (cbn; rewrite Z1, D1; reflexivity).
    assert (P2 : pointerEvents s2 = pointerEvents s) by (cbn; rewrite Z2, D2; reflexivity).
    assert (L2 : listeners s2 = listeners (detached s)) by (cbn; exact Z4).
    rewrite N2 in A, B, E. rewrite P2 in D.
    rewrite (pointerListeners_same_names s s2) in E by exact P2.
    split; [exact A|]. split; [exact B|]. split; [exact C|]. split; [exact D|].
    intros l. rewrite E, L2, DL. tauto'.
  - destruct (rebuild_listeners w (resized w opts (detached s)))
      as (A & B & C & D & E). cbn zeta in A, B, C, D, E.
    rewrite Z1, D1 in A, B, E. rewrite Z2, D2 in D.
    rewrite (pointerListeners_same_names s (resized w opts (detached s)))
      in E by (rewrite Z2, D2; reflexivity).
    split; [exact A|]. split; [exact B|]. split; [exact C|]. split; [exact D|].
    intros l. rewrite E, Z4, DL. tauto'.
Qed.

(** The same for [updateDeviceSize] itself. *)
Lemma update_listeners (w : Window) (opts : UpdateOpts) (s : State) :
  pointerListenersCurrent s ->
  hasPrevDeviceSize s && optCleanup opts = false ->
  (exists cl, pointerClosures (updateDeviceSize w opts s) = Some cl
              /\ closureId cl = nextClosure s)
  /\ nextClosure (updateDeviceSize w opts s) = S (nextClosure s)
  /\ prevDeviceSize (updateDeviceSize w opts s) = Some (size (updateDeviceSize w opts s))
  /\ pointerEvents (updateDeviceSize w opts s) = pointerEvents s
  /\ forall l : Listener,
       l ∈ listeners (updateDeviceSize w opts s)
       <-> l ∈ pointerListeners s (nextClosure s)
           \/ (l ∈ listeners s /\ isPointerHandler (handler l) = false).
Proof.
  intros I HC.
  exact (update_listeners_fuel _ w opts s
           (stepBound_enough (resolution (mutResolution s))) I HC).
Qed.

Lemma hasPrevDeviceSize_Some (s : State) (d : DeviceSize) :
  prevDeviceSize s = Some d -> hasPrevDeviceSize s = true.
Proof. unfold hasPrevDeviceSize. intros ->. reflexivity. Qed.

(** The invariant only looks at the listeners, the closures, the stored
    size and the event names, and survives the removal of listeners and
    the addition of listeners that are not pointer listeners. *)
Lemma pointerListenersCurrent_weaken (s s' : State) :
  pointerClosures s' = pointerClosures s ->
  prevDeviceSize s' = prevDeviceSize s ->
  pointerEvents s' = pointerEvents s ->
  (forall l, l ∈ listeners s' ->
             l ∈ listeners s \/ isPointerHandler (handler l) = false) ->
  pointerListenersCurrent s -> pointerListenersCurrent s'.
Proof.
  intros PC PD PE L I l H P.
  destruct (L l H) as [M|M]; [|rewrite M in P; discriminate].
  destruct (I l M P) as (cl & A & B & C).
  exists cl. rewrite PC. split; [exact A|]. split.
  - unfold hasPrevDeviceSize in *. rewrite PD. exact B.
  - rewrite (pointerListeners_same_names s s') by exact PE. exact C.
Qed.

Lemma sameWiring_invariant (s s' : State) :
  sameWiring s s' -> pointerListenersCurrent s -> pointerListenersCurrent s'.
Proof.
  intros (A & B & C & D). apply pointerListenersCurrent_weaken; auto.
  intros l H. left. rewrite <- A. exact H.
Qed.

Lemma sameWiring_refl (s : State) : sameWiring s s.
Proof. unfold sameWiring. auto. Qed.

Lemma sameWiring_trans (s1 s2 s3 : State) :
  sameWiring s1 s2 -> sameWiring s2 s3 -> sameWiring s1 s3.
Proof.
  unfold sameWiring. intros (A1 & A2 & A3 & A4) (B1 & B2 & B3 & B4).
  rewrite B1, B2, B3, B4. auto.
Qed.

Lemma fold_left_sameWiring {A : Type} (f : State -> A -> State) (l : list A)
    (s : State) :
  (forall s' a, sameWiring s' (f s' a)) -> sameWiring s (fold_left f l s).
Proof.
  intros H.
  apply (fold_left_invariant (fun s' => sameWiring s s')); [|apply sameWiring_refl].
  intros s' a W. eapply sameWiring_trans; [exact W | apply H].
Qed.

Lemma pointer_handlers_sameWiring (cl : Closures) (e : PointerInput) (s : State) :
  sameWiring s (pointerDown cl e s) /\ sameWiring s (pointerMove cl e s)
  /\ sameWiring s (pointerUp cl e s) /\ sameWiring s (pointerCancel e s).
Proof.
  destruct e as [x y id | touches];
    cbn [pointerDown pointerMove pointerUp pointerCancel]; cbn zeta.
  - destruct (isPointerOutsideGame _ _ _); repeat split.
  - split; [|split; [|split]].
    + apply (sameWiring_trans s (set_isInFocus false s)); [repeat split|].
      apply fold_left_sameWiring. intros s' a. cbn zeta.
      destruct (isPointerOutsideGame _ _ _); repeat split.
    + apply fold_left_sameWiring. intros s' a. cbn zeta.
      destruct (isPointerOutsideGame _ _ _); repeat split.
    + apply fold_left_sameWiring. intros s' a. cbn zeta.
      destruct (isPointerOutsideGame _ _ _); repeat split.
    + apply fold_left_sameWiring. intros s' a. repeat split.
Qed.

Lemma newWebFrame_sameWiring (b e : bool) (t : Q) (s : State) :
  sameWiring s (newWebFrame b e t s).
Proof.
  destruct s as [? ? [v ? n ? ? i] ? ? ? ? ? ? ? ? ? cu cs].
  unfold newWebFrame, loop, sameWiring. cbn.
  destruct cu, b, e, i, v, n; cbn; auto.
Qed.

Lemma handlePageVisible_sameWiring (hidden : bool) (s : State) :
  sameWiring s (handlePageVisible hidden s).
Proof.
  unfold handlePageVisible, sameWiring.
  destruct hidden, (isPageVisible (clock s)); cbn; auto.
Qed.

(** Any [updateDeviceSize], the early return of a clean-up included,
    keeps the invariant. *)
Lemma update_keeps_invariant (w : Window) (opts : UpdateOpts) (s : State) :
  pointerListenersCurrent s -> pointerListenersCurrent (updateDeviceSize w opts s).
Proof.
  intros I. destruct (hasPrevDeviceSize s && optCleanup opts) eqn:HC.
  - rewrite updateDeviceSize_unfold, HC.
    intros l H P. apply (detached_listeners s I) in H as [_ H].
    rewrite H in P. discriminate.
  - destruct (update_listeners w opts s I HC) as ((cl & A1 & A2) & B & C & D & E).
    intros l H P. apply E in H as [H|[_ H]]; [|rewrite H in P; discriminate].
    exists cl. split; [exact A1|]. split; [eapply hasPrevDeviceSize_Some, C|].
    rewrite A2, (pointerListeners_same_names s) by exact D. exact H.
Qed.

Lemma cleanup_unfold (w : Window) (s : State) :
  cleanup w s
  = updateDeviceSize w {| optCleanup := true; optDidScroll := false |} (cleanupStart s).
Proof. reflexivity. Qed.

Lemma cleanupStart_vars (s : State) :
  prevDeviceSize (cleanupStart s) = prevDeviceSize s
  /\ pointerClosures (cleanupStart s) = pointerClosures s
  /\ pointerEvents (cleanupStart s) = pointerEvents s
  /\ nextClosure (cleanupStart s) = nextClosure s
  /\ forall l : Listener,
       l ∈ listeners (cleanupStart s)
       <-> l ∈ listeners s
           /\ l <> {| target := DocumentT; eventType := "keydown";
                      handler := InputKeyDownHandler |}
           /\ l <> {| target := DocumentT; eventType := "keyup";
                      handler := InputKeyUpHandler |}
           /\ l <> {| target := DocumentT; eventType := "visibilitychange";
                      handler := HandlePageVisible |}
           /\ l <> {| target := WindowT; eventType := "resize";
                      handler := UpdateDeviceSize |}
           /\ l <> {| target := WindowT; eventType := "scroll";
                      handler := UpdateScroll |}.
Proof.
  unfold cleanupStart. destruct (userCanvas options);
    cbn [prevDeviceSize pointerClosures pointerEvents nextClosure listeners
         windowRemove documentRemove set_listeners set_isCleanedUp set_canvas];
    (repeat split; try reflexivity);
    rewrite !elem_of_removeEventListener in *; tauto'.
Qed.

Lemma cleanupStart_invariant (s : State) :
  pointerListenersCurrent s -> pointerListenersCurrent (cleanupStart s).
Proof.
  destruct (cleanupStart_vars s) as (A & B & C & _ & L).
  apply pointerListenersCurrent_weaken; auto.
  intros l H. left. apply L in H. apply H.
Qed.

(** The invariant is kept by every event. *)
Lemma step_keeps_invariant (w : Window) (e : Event) (s : State) :
  pointerListenersCurrent s -> pointerListenersCurrent (step w e s).
Proof.
  intros I.
  destruct e; cbn [step].
  - eapply sameWiring_invariant; [apply newWebFrame_sameWiring | exact I].
  - eapply sameWiring_invariant; [apply handlePageVisible_sameWiring | exact I].
  - apply update_keeps_invariant, I.
  - apply update_keeps_invariant, I.
  - eapply sameWiring_invariant; [|exact I].
    unfold keyDownHandler. destruct (_ || _); repeat split.
  - eapply sameWiring_invariant; [|exact I].
    unfold keyUpHandler. destruct (negb _); repeat split.
  - destruct (pointerClosures s) as [cl|] eqn:PC; [|exact I].
    eapply sameWiring_invariant; [apply (pointer_handlers_sameWiring cl e s) | exact I].
  - destruct (pointerClosures s) as [cl|] eqn:PC; [|exact I].
    eapply sameWiring_invariant; [apply (pointer_handlers_sameWiring cl e s) | exact I].
  - destruct (pointerClosures s) as [cl|] eqn:PC; [|exact I].
    eapply sameWiring_invariant; [apply (pointer_handlers_sameWiring cl e s) | exact I].
  - destruct (pointerClosures s) as [cl|] eqn:PC; [|exact I].
    eapply sameWiring_invariant; [apply (pointer_handlers_sameWiring cl e s) | exact I].
  - unfold onFirstInteraction.
    match goal with
    | |- pointerListenersCurrent (if _ then call _ ?s0 else ?s0) =>
        assert (I0 : pointerListenersCurrent s0)
    end.
    { apply (pointerListenersCurrent_weaken s); try reflexivity; [|exact I].
      intros l H. left. cbn in H.
      apply elem_of_removeEventListener in H as [_ H].
      apply elem_of_removeEventListener in H as [_ H]. exact H. }
    destruct (audioSuspended w); [|exact I0].
    eapply sameWiring_invariant; [|exact I0]. repeat split.
  - unfold resolution_set.
    eapply sameWiring_invariant; [|apply update_keeps_invariant].
    + repeat split.
    + eapply sameWiring_invariant; [|exact I]. repeat split.
  - unfold storedResolution. destruct value as [v|]; [|exact I].
    destruct (JS_Number v); [|exact I].
    unfold resolution_set.
    eapply sameWiring_invariant; [|apply update_keeps_invariant].
    + repeat split.
    + eapply sameWiring_invariant; [|exact I]. repeat split.
  - unfold launch. destruct (_ || _).
    + eapply sameWiring_invariant; [|exact I]. repeat split.
    + eapply sameWiring_invariant; [|apply update_keeps_invariant, I].
      unfold loop. destruct (statsEnd options); repeat split.
  - rewrite cleanup_unfold. apply update_keeps_invariant, cleanupStart_invariant, I.
Qed.

(** X14.  One completed [updateDeviceSize] (anything but the early
    return of a clean-up), on a document whose pointer listeners belong
    to the current closures: the document then holds the four listeners
    of the new closures, no pointer listener of older closures, and
    every other listener exactly as before; the new closures are stored
    and the size in use is recorded as [prevDeviceSize]. *)
Theorem update_replaces_pointer_listeners (w : Window) (opts : UpdateOpts) (s : State) :
  pointerListenersCurrent s ->
  hasPrevDeviceSize s && optCleanup opts = false ->
  let s' := updateDeviceSize w opts s in
  (exists cl, pointerClosures s' = Some cl /\ closureId cl = nextClosure s)
  /\ prevDeviceSize s' = Some (size s')
  /\ (forall l : Listener,
        l ∈ listeners s'
        <-> l ∈ pointerListeners s (nextClosure s)
            \/ (l ∈ listeners s /\ isPointerHandler (handler l) = false))
  /\ pointerListenersCurrent s'.
Proof.
  intros I HC. cbn zeta.
  destruct (update_listeners w opts s I HC) as (A & _ & C & _ & E).
  split; [exact A|]. split; [exact C|]. split; [exact E|].
  apply update_keeps_invariant, I.
Qed.

(** X15.  [cleanup] on a platform that has a stored size: afterwards the
    document holds no pointer listener, no visibility, resize or scroll
    listener of the platform, and every other listener it held before
    (among them the two keyboard wrappers, which [cleanup] does not
    name). *)
Theorem cleanup_detaches_pointer_listeners (w : Window) (s : State) :
  pointerListenersCurrent s -> hasPrevDeviceSize s = true ->
  forall l : Listener,
    l ∈ listeners (cleanup w s)
    <-> l ∈ listeners s
        /\ isPointerHandler (handler l) = false
        /\ l <> {| target := DocumentT; eventType := "keydown";
                   handler := InputKeyDownHandler |}
        /\ l <> {| target := DocumentT; eventType := "keyup";
                   handler := InputKeyUpHandler |}
        /\ l <> {| target := DocumentT; eventType := "visibilitychange";
                   handler := HandlePageVisible |}
        /\ l <> {| target := WindowT; eventType := "resize";
                   handler := UpdateDeviceSize |}
        /\ l <> {| target := WindowT; eventType := "scroll"; handler := UpdateScroll |}.
Proof.
  intros I HP l.
  destruct (cleanupStart_vars s) as (A & _ & _ & _ & L).
  assert (HP0 : hasPrevDeviceSize (cleanupStart s) = true)
    by (unfold hasPrevDeviceSize in *; rewrite A; exact HP).
  rewrite cleanup_unfold, updateDeviceSize_unfold, HP0. cbn [optCleanup andb].
  rewrite (detached_listeners _ (cleanupStart_invariant s I)), L. tauto'.
Qed.

(** X16.  [cleanup] on a platform that has no stored size yet (the
    launch was deferred): the call [updateDeviceSize({ cleanup: true })]
    does not return early but runs in full, so clean-up stores a device
    size and attaches the four pointer listeners. *)
Theorem cleanup_before_first_size (w : Window) (s : State) :
  pointerListenersCurrent s -> hasPrevDeviceSize s = false ->
  let s' := cleanup w s in
  isCleanedUp s' = true
  /\ prevDeviceSize s' = Some (viewportDeviceSize w)
  /\ (forall l : Listener, l ∈ pointerListeners s (nextClosure s) -> l ∈ listeners s').
Proof.
  intros I HP. cbn zeta.
  split; [apply (cleanup_makes_clock_inert w s 0)|].
  destruct (cleanupStart_vars s) as (A & _ & C & D & _).
  assert (HP0 : hasPrevDeviceSize (cleanupStart s) = false)
    by (unfold hasPrevDeviceSize in *; rewrite A; exact HP).
  rewrite cleanup_unfold.
  destruct (update_listeners w {| optCleanup := true; optDidScroll := false |}
              (cleanupStart s) (cleanupStart_invariant s I))
    as (_ & _ & P & _ & E); [rewrite HP0; reflexivity|].
  split.
  - rewrite P. f_equal. apply resize_recomputes_size; rewrite HP0; reflexivity.
  - intros l H. apply E. left.
    rewrite D, (pointerListeners_same_names s) by exact C. exact H.
Qed.

(** X17.  If the document [renderCanvas] starts in holds no pointer
    listener of the platform, then after any sequence of events every
    pointer listener in the document belongs to the closures built by
    the latest [updateDeviceSize]: listeners of older closures never
    stay behind. *)
Theorem pointer_listeners_never_leak (w : Window) (doc : list Listener)
    (store : gmap string string) (s : State) (stored : option string)
    (evs : list (Window * Event)) :
  renderCanvas w doc store = Started s stored ->
  (forall l, l ∈ doc -> isPointerHandler (handler l) = false) ->
  pointerListenersCurrent (run evs s).
Proof.
  intros HS HD.
  assert (I : pointerListenersCurrent s).
  { revert HS. unfold renderCanvas.
    destruct (webgl w); [|discriminate].
    destruct (angleInstancedArrays w); [|discriminate].
    destruct (oesVertexArrayObject w); [|discriminate].
    cbn [negb]. intros H. injection H as <- _.
    apply (step_keeps_invariant w LaunchTimeout).
    intros l H P. exfalso. cbn in H.
    repeat (apply elem_of_addEventListener in H as [->|H]; [discriminate P|]).
    rewrite (HD l H) in P. discriminate. }
  clear HS. revert s I. induction evs as [|[w' e] evs IH]; intros s I; [exact I|].
  change (run ((w', e) :: evs) s) with (run evs (step w' e s)).
  apply IH, step_keeps_invariant, I.
Qed.

(** ** Start-up and restart *)

(** X18.  A resolution set in one session is applied again in the next:
    [set(r)] writes [String(r)] under [RESOLUTION_KEY], and a later
    [renderCanvas] on that store reads it back, so that, provided
    [Number(String(r))] is [r], the stored-resolution callback sets the
    multiplier to [r] with the override flag, whatever happened between
    start-up and the callback. *)
Theorem override_survives_restart (w : Window) (r : Q) (s : State)
    (w' : Window) (doc' : list Listener) (s1 : State) (stored : option string)
    (evs0 : list (Window * Event)) (w'' : Window) :
  JS_Number (JS_String r) = Some r ->
  renderCanvas w' doc' (storage (resolution_set w r s)) = Started s1 stored ->
  stored = Some (JS_String r)
  /\ mutResolution (step w'' (StoredResolution stored) (run evs0 s1))
     = {| resolution := r; hasSet := true |}.
Proof.
  intros RT HS.
  destruct (renderCanvas_started _ _ _ _ _ HS) as (_ & _ & _ & _ & _ & ->).
  destruct (resolution_set_effect w r s) as (_ & _ & _ & _ & ->).
  rewrite lookup_insert_eq. split; [reflexivity|].
  cbn [step storedResolution]. rewrite RT.
  apply resolution_set_effect.
Qed.

Lemma rebuild_frameRequests (w : Window) (s : State) :
  frameRequests (calls (rebuild w s)) = frameRequests (calls s).
Proof.
  unfold rebuild. destruct (canvasBuffer _ _ _) as [cw ch].
  unfold frameRequests. cbn. rewrite flat_map_app, length_app. cbn. lia.
Qed.

Lemma updateDeviceSize_fuel_frameRequests (n : nat) :
  forall (w : Window) (opts : UpdateOpts) (s : State),
    frameRequests (calls (updateDeviceSize_fuel n w opts s)) = frameRequests (calls s).
Proof.
  assert (D : forall s, calls (detached s) = calls s).
  { intros s. unfold detached. destruct (hasPrevDeviceSize s); [|reflexivity].
    apply removePointerListeners_frame. }
  induction n as [|n IH]; intros w opts s; cbn [updateDeviceSize_fuel];
    (destruct (hasPrevDeviceSize s && optCleanup opts); [rewrite D; reflexivity|]);
    destruct (beforeTest_frame w opts s) as (_ & _ & _ & C & _);
    (destruct (stepDownGuard _ _ _); [|rewrite rebuild_frameRequests, C; reflexivity]).
  - cbn. rewrite C. reflexivity.
  - rewrite IH. cbn. rewrite C. reflexivity.
Qed.

Lemma updateDeviceSize_fuel_prev (n : nat) :
  forall (w : Window) (opts : UpdateOpts) (s : State),
    10 * resolution (mutResolution s) <= inject_Z (Z.of_nat n) ->
    hasPrevDeviceSize s && optCleanup opts = false ->
    prevDeviceSize (updateDeviceSize_fuel n w opts s)
    = Some (size (updateDeviceSize_fuel n w opts s)).
Proof.
  induction n as [|n IH]; intros w opts s Hn HC; cbn [updateDeviceSize_fuel];
    rewrite HC; destruct (beforeTest_frame w opts s) as (R & _);
    destruct (stepDownGuard _ _ _) eqn:G;
    try (destruct (rebuild_frame w (resized w opts (detached s)))
           as (_ & -> & -> & _); reflexivity).
  - exfalso. unfold stepDownGuard in G. apply andb_prop in G as [_ G].
    apply Qgtb_true in G. rewrite R in G.
    unfold Qle in Hn; cbn in Hn; unfold Qlt in G; cbn in G; lia.
  - apply IH; [|apply andb_false_r].
    rewrite stepDown_resolution, R. unfold stepDownGuard in G.
    rewrite inject_nat_succ in Hn. lra.
Qed.

(** X19.  [renderCanvas] in a viewport whose width or height is zero
    starts the platform but defers the launch: a retry timer is set, no
    device size is stored, no pointer listener is attached, the engine
    is not created and no frame is requested.  In a viewport with
    non-zero width and height it stores the viewport's device size,
    creates the engine and requests exactly one frame. *)
Theorem launch_waits_for_a_viewport (w : Window) (doc : list Listener)
    (store : gmap string string) (s : State) (stored : option string) :
  renderCanvas w doc store = Started s stored ->
  (viewWidth w == 0 \/ viewHeight w == 0 ->
   calls s = [SetTimeoutLaunch]
   /\ prevDeviceSize s = None /\ pointerClosures s = None
   /\ mutResolution s = {| resolution := 1; hasSet := false |})
  /\ (~ viewWidth w == 0 -> ~ viewHeight w == 0 ->
      prevDeviceSize s = Some (viewportDeviceSize w)
      /\ frameRequests (calls s) = 1%nat
      /\ ReplayCore ∈ calls s).
Proof.
  unfold renderCanvas.
  destruct (webgl w); [|discriminate].
  destruct (angleInstancedArrays w); [|discriminate].
  destruct (oesVertexArrayObject w); [|discriminate].
  cbn [negb]. intros H. injection H as <- _.
  unfold launch. split.
  - intros Z.
    assert (B : Qeq_bool (viewWidth w) 0 || Qeq_bool (viewHeight w) 0 = true).
    { apply orb_true_iff. destruct Z as [Z|Z]; [left | right]; apply Qeq_bool_iff, Z. }
    rewrite B. cbn. auto.
  - intros Z1 Z2.
    assert (B : Qeq_bool (viewWidth w) 0 || Qeq_bool (viewHeight w) 0 = false).
    { apply orb_false_iff.
      split; apply not_true_iff_false; intros E; apply Qeq_bool_iff in E; contradiction. }
    rewrite B.
    match goal with
    | |- context [updateDeviceSize w noOpts ?s0] => set (s9 := s0)
    end.
    pose proof (updateDeviceSize_fuel_prev _ w noOpts s9
                  (stepBound_enough (resolution (mutResolution s9)))
                  (andb_false_r _)) as C.
    fold (updateDeviceSize w noOpts s9) in C.
    pose proof (resize_recomputes_size w noOpts s9 eq_refl (andb_false_r _)) as SZ.
    pose proof (updateDeviceSize_fuel_frameRequests
                  (stepBound (resolution (mutResolution s9))) w noOpts s9) as FR.
    fold (updateDeviceSize w noOpts s9) in FR.
    unfold loop. destruct (statsEnd options);
      cbn [prevDeviceSize calls call set_clock];
      rewrite C, SZ; (split; [reflexivity|]);
      unfold frameRequests in *; rewrite !flat_map_app, !length_app, FR;
      (split; [cbn; lia|]); clear_params; set_solver.
Qed.




(** ** The device size on resize and scroll *)

(** X21.  A scroll event on a platform that has a stored size and on
    which no step-down is due keeps [mutDevice.size] and the multiplier;
    the canvas buffer is still recomputed from that size in the current
    environment. *)
Theorem scroll_within_budget_keeps_size (w : Window) (s : State) :
  hasPrevDeviceSize s = true ->
  stepDownGuard w (size s) (mutResolution s) = false ->
  let s' := step w ScrollEvent s in
  size s' = size s
  /\ prevDeviceSize s' = Some (size s)
  /\ mutResolution s' = mutResolution s
  /\ (canvasWidth (canvas s'), canvasHeight (canvas s'))
     = canvasBuffer w (size s) (resolution (mutResolution s)).
Proof.
  intros HP G. cbn zeta. cbn [step]. rewrite updateDeviceSize_unfold.
  cbn [optCleanup optDidScroll]. rewrite andb_false_r. cbn zeta.
  pose proof (beforeTest_size w {| optCleanup := false; optDidScroll := true |} s) as B.
  cbn [optDidScroll] in B. rewrite HP in B. cbn in B.
  destruct (beforeTest_frame w {| optCleanup := false; optDidScroll := true |} s)
    as (R & _).
  rewrite B, R, G.
  destruct (rebuild_frame w (resized w {| optCleanup := false; optDidScroll := true |}
                               (detached s))) as (-> & -> & -> & _).
  rewrite rebuild_canvas, B, R. auto.
Qed.

(** X22.  A resize event always ends with [mutDevice.size] computed from
    the viewport of that moment and stored as [prevDeviceSize], with or
    without step-downs on the way. *)
Theorem resize_recomputes_device_size (w : Window) (s : State) :
  let s' := step w ResizeEvent s in
  size s' = viewportDeviceSize w
  /\ prevDeviceSize s' = Some (viewportDeviceSize w).
Proof.
  cbn zeta. cbn [step].
  assert (SZ : size (updateDeviceSize w noOpts s) = viewportDeviceSize w).
  { apply updateDeviceSize_fuel_size; [apply andb_false_r | reflexivity]. }
  split; [exact SZ|]. rewrite <- SZ.
  apply updateDeviceSize_fuel_prev; [apply stepBound_enough | apply andb_false_r].
Qed.

(** ** The play region *)

(** X23.  The play region is closed and symmetric about the origin: a
    point is inside exactly when its distance from the centre is at
    most half the width plus the margin horizontally and half the
    height plus the margin vertically (so a point on the border is
    inside), and a point is outside exactly when its mirror image is. *)
Theorem play_region_is_symmetric (d : DeviceSize) (x y : Q) :
  (isPointerOutsideGame d x y = false
   <-> Qabs x <= width d / 2 + widthMargin d
       /\ Qabs y <= height d / 2 + heightMargin d)
  /\ isPointerOutsideGame d (- x) (- y) = isPointerOutsideGame d x y.
Proof.
  assert (C : forall x y,
             isPointerOutsideGame d x y = false
             <-> Qabs x <= width d / 2 + widthMargin d
                 /\ Qabs y <= height d / 2 + heightMargin d).
  { intros x0 y0.
    assert (F : isPointerOutsideGame d x0 y0 = false
                <-> (- width d / 2 - widthMargin d <= x0 <= width d / 2 + widthMargin d
                     /\ - height d / 2 - heightMargin d <= y0
                        <= height d / 2 + heightMargin d)).
    { unfold isPointerOutsideGame, Qltb. rewrite !orb_false_iff, !Qgtb_false.
      rewrite !negb_false_iff, !Qle_bool_iff. tauto'. }
    rewrite F, !Qabs_Qle_condition.
    set (a := width d / 2) in *. set (b := height d / 2) in *.
    assert (A : - width d / 2 == - a) by (unfold a; field).
    assert (B : - height d / 2 == - b) by (unfold b; field).
    rewrite A, B. split; intros [[H1 H2] [H3 H4]]; repeat split; lra. }
  split; [apply C|].
  destruct (isPointerOutsideGame d x y) eqn:E.
  - apply not_false_iff_true. intros F. apply not_false_iff_true in E. apply E.
    apply C. apply C in F. rewrite !Qabs_opp in F. exact F.
  - apply C. apply C in E. rewrite !Qabs_opp. exact E.
Qed.

End Platform.

(** * The model on concrete inputs *)

#[local] Abbreviation key := "replay-resolution"%string.
#[local] Abbreviation sampleRender :=
  (renderCanvas fillViewport centredX centredY webX webY key).
#[local] Abbreviation sampleRun :=
  (run fillViewport centredX centredY webX webY parseSample printSample key).
#[local] Abbreviation sampleStep :=
  (step fillViewport centredX centredY webX webY parseSample printSample key).
#[local] Abbreviation sampleUpdate :=
  (updateDeviceSize fillViewport centredX centredY webX webY).
#[local] Abbreviation sampleSet :=
  (resolution_set fillViewport centredX centredY webX webY printSample key).
#[local] Abbreviation sampleCleanup :=
  (cleanup fillViewport centredX centredY webX webY).
#[local] Abbreviation sampleDeclared := (declared fillViewport).
#[local] Abbreviation frame t := (desktop, AnimationFrame t).
#[local] Abbreviation hide := (desktop, VisibilityChange true).
#[local] Abbreviation show := (desktop, VisibilityChange false).

(** ** C1: a run with a hidden interval *)


(** ** C2: the multiplier under a budget that cannot be met *)

(** Launching an 800 x 600 game with a budget of 100 pixels steps the
    multiplier from 1 down to 0.1: the last step is taken at 0.2, which
    is above 0.15, and ends below 0.15. *)
Lemma step_down_passes_the_floor :
  exists (s : State) (stored : option string),
    sampleRender (budgetOptions 100) desktop [] ∅ = Started s stored
    /\ hasSet (mutResolution s) = false
    /\ resolution (mutResolution s) == 1 # 10
    /\ resolution (mutResolution s) < 15 # 100.
Proof.
  eexists _, _. split; [reflexivity|].
  split; [vm_compute; reflexivity|].
  split; vm_compute; reflexivity.
Qed.

Lemma step_down_sequence_witness :
  let s := sampleDeclared (budgetOptions 100) desktop [] ∅ in
  let s' := sampleUpdate (budgetOptions 100) desktop noOpts s in
  let sizeAt (j : nat) :=
    match j with
    | O => size (resized fillViewport (budgetOptions 100) desktop noOpts (detached s))
    | S _ => viewportDeviceSize fillViewport (budgetOptions 100) desktop
    end in
  exists k : nat,
    resolution (mutResolution s') == 1 - inject_Z (Z.of_nat k) * (1 # 10)
    /\ hasSet (mutResolution s') = false
    /\ size s' = sizeAt k
    /\ (forall j : nat, (j < k)%nat ->
          3 # 20 < 1 - inject_Z (Z.of_nat j) * (1 # 10)
          /\ 100 < pixelCount (budgetOptions 100) desktop (sizeAt j)
                     (1 - inject_Z (Z.of_nat j) * (1 # 10)))
    /\ (pixelCount (budgetOptions 100) desktop (size s') (resolution (mutResolution s'))
        <= 100
        \/ resolution (mutResolution s') <= 3 # 20)
    /\ ((0 < k)%nat -> 1 # 20 < resolution (mutResolution s'))
    /\ (canvasWidth (canvas s'), canvasHeight (canvas s'))
       = canvasBuffer (budgetOptions 100) desktop (size s')
           (resolution (mutResolution s')).
Proof.
  apply (step_down_sequence fillViewport centredX centredY webX webY
           (budgetOptions 100) 100 desktop noOpts
           (sampleDeclared (budgetOptions 100) desktop [] ∅)).
  - reflexivity.
  - vm_compute. discriminate.
  - reflexivity.
  - reflexivity.
Defined.

(** ** C3: an override under a budget that cannot be met *)

Lemma set_disables_step_down_witness :
  mutResolution
    (sampleRun (budgetOptions 100)
       [(desktop, ResizeEvent); (denseShort, ScrollEvent); frame 16;
        (denseShort, ResizeEvent)]
       (sampleSet (budgetOptions 100) desktop (1 # 2)
          (sampleDeclared (budgetOptions 100) desktop [] ∅)))
  = {| resolution := 1 # 2; hasSet := true |}.
Proof.
  apply (set_disables_step_down fillViewport centredX centredY webX webY
           parseSample printSample key (budgetOptions 100) desktop (1 # 2)
           (sampleDeclared (budgetOptions 100) desktop [] ∅)
           [(desktop, ResizeEvent); (denseShort, ScrollEvent); frame 16;
            (denseShort, ResizeEvent)]).
  repeat constructor.
Defined.

(** ** C4: hidden from 1000 to 5000, next frame at 5016 *)



(** ** C5: the page hidden and shown again before the first frame *)

(** C5, at the failing input.  The page is hidden and becomes visible
    again before the first animation frame, which arrives at raw time
    1000: [lastPageNotVisibleTime] was taken from [lastTimeValue], still
    0, so the whole timestamp is subtracted and the first elapsed time
    handed to the engine is [1/60 - 1000], a negative number, and not
    the [1/60] of one frame. *)
Theorem first_frame_after_early_hide :
  exists (s : State) (stored : option string),
    sampleRender plainOptions desktop [] ∅ = Started s stored
    /\ exists e : Q,
         elapsedTimes (calls (sampleRun plainOptions [hide; show; frame 1000] s)) = [e]
         /\ e == 1 / 60 - 1000 /\ ~ e == 1 / 60 /\ e < 0.
Proof.
  eexists _, _. split; [reflexivity|].
  eexists. split; [vm_compute; reflexivity|].
  split; [reflexivity|]. split; [vm_compute; discriminate | reflexivity].
Qed.

(** ** C7: what [cleanup] leaves in the document *)

(** C7, at the failing input.  After [renderCanvas] and [cleanup] the
    document still has the two keyboard listeners ([cleanup] removes the
    handlers of [./input], which were never registered, not the wrappers
    that were), the context-menu listener and the two first-interaction
    listeners; the visibility, resize, scroll and pointer listeners are
    gone. *)
Theorem cleanup_leaves_listeners :
  exists (s : State) (stored : option string),
    sampleRender plainOptions desktop [foreignListener] ∅ = Started s stored
    /\ listeners (sampleCleanup plainOptions desktop s)
       = [ foreignListener;
           {| target := DocumentT; eventType := "keydown"; handler := KeyDownHandler |};
           {| target := DocumentT; eventType := "keyup"; handler := KeyUpHandler |};
           {| target := DocumentT; eventType := "contextmenu";
              handler := ContextMenuHandler |};
           {| target := DocumentT; eventType := "keydown";
              handler := OnFirstInteraction |};
           {| target := DocumentT; eventType := "pointerdown";
              handler := OnFirstInteraction |} ]
    /\ isCleanedUp (sampleCleanup plainOptions desktop s) = true.
Proof.
  eexists _, _. split; [reflexivity|]. split; vm_compute; reflexivity.
Qed.

(** ** C8: a scroll on which a step-down is due *)

(** C8, at the failing input.  The game runs in an 800 x 600 window with
    a budget of 480000 pixels, which pixel ratio 1 just meets.  The
    window moves to a screen of pixel ratio 2 and the viewport is 100
    pixels shorter when a scroll event arrives: the buffer is over
    budget, the step-down calls [updateDeviceSize()] without
    [didScroll], and the stored device size is recomputed from the
    viewport although the event was a scroll and a previous size
    existed. *)
Theorem scroll_with_step_down_changes_size :
  exists (s : State) (stored : option string),
    sampleRender (budgetOptions 480000) desktop [] ∅ = Started s stored
    /\ hasPrevDeviceSize s = true
    /\ size s = fillViewport 800 600 tt tt
    /\ size (sampleRun (budgetOptions 480000) [(denseShort, ScrollEvent)] s)
       = fillViewport 800 500 tt tt.
Proof.
  eexists _, _. split; [reflexivity|].
  split; [vm_compute; reflexivity|]. split; vm_compute; reflexivity.
Qed.

(** ** C9: a browser without vertex array objects *)

Lemma missing_capability_aborts_witness :
  exists message : string,
    sampleRender plainOptions noVao [foreignListener] ∅
    = Error message [foreignListener] [].
Proof.
  apply (missing_capability_aborts fillViewport centredX centredY webX webY key
           plainOptions noVao [foreignListener] ∅).
  right. right. reflexivity.
Defined.

(** ** C10: a stored resolution *)

(** A stored value that does not parse leaves the multiplier where the
    launch put it, which under a budget of 100 pixels is 0.1, not 1. *)
Lemma unparsable_value_after_step_down :
  exists (s : State) (stored : option string),
    sampleRender (budgetOptions 100) desktop [] (<[key := "abc"%string]> ∅)
    = Started s stored
    /\ stored = Some "abc"%string
    /\ parseSample "abc" = None
    /\ hasSet (mutResolution (sampleStep (budgetOptions 100) desktop
                                (StoredResolution stored) s)) = false
    /\ ~ resolution (mutResolution (sampleStep (budgetOptions 100) desktop
                                      (StoredResolution stored) s)) == 1.
Proof.
  eexists _, _. split; [reflexivity|].
  split; [vm_compute; reflexivity|]. split; [reflexivity|].
  split; [vm_compute; reflexivity|]. vm_compute. discriminate.
Qed.

Lemma stored_resolution_applied_witness :
  exists (s0 : State) (stored : option string),
    sampleRender (budgetOptions 100) desktop [] (<[key := "0.05"%string]> ∅)
    = Started s0 stored
    /\ let s' := sampleStep (budgetOptions 100) desktop (StoredResolution stored) s0 in
       mutResolution s' = {| resolution := 1 # 20; hasSet := true |}
       /\ size s' = fillViewport 800 600 tt tt
       /\ storage s' !! key = Some "0.05"%string.
Proof.
  eexists _, _. split; [reflexivity|].
  assert (L : (<[key := "0.05"%string]> ∅ : gmap string string) !! key
              = Some "0.05"%string) by (vm_compute; reflexivity).
  destruct (stored_resolution_applied fillViewport centredX centredY webX webY
              parseSample printSample key (budgetOptions 100) desktop []
              (<[key := "0.05"%string]> ∅) _ _ [] desktop "0.05"%string
              eq_refl L) as [H _].
  destruct (H (1 # 20) eq_refl) as (A & B & _ & _ & _ & C & _).
  cbn zeta. split; [exact A|]. split; [exact B | exact C].
Defined.

(** ** Further properties on concrete inputs *)

#[local] Abbreviation fresh := (sampleDeclared plainOptions desktop [foreignListener] ∅).
#[local] Abbreviation sized := (sampleUpdate plainOptions desktop noOpts fresh).

Lemma fresh_listeners_current : pointerListenersCurrent fresh.
Proof.
  intros l H P. exfalso. apply list_elem_of_singleton in H. subst l. discriminate P.
Defined.

Lemma visibility_change_effects_witness :
  calls (handlePageVisible true fresh) = calls fresh ++ [AudioSuspend]
  /\ calls (handlePageVisible false (handlePageVisible true fresh))
     = calls (handlePageVisible true fresh) ++ [AudioRestartTimers].
Proof.
  split.
  - apply (proj1 (proj2 (visibility_change_effects fresh))). reflexivity.
  - apply (proj2 (proj2 (visibility_change_effects (handlePageVisible true fresh)))).
    reflexivity.
Defined.


Lemma events_and_the_clock_witness :
  isCleanedUp (sampleStep plainOptions desktop ResizeEvent
                 (sampleCleanup plainOptions desktop fresh)) = true.
Proof.
  apply (events_and_the_clock fillViewport centredX centredY webX webY
           parseSample printSample key plainOptions desktop ResizeEvent
           (sampleCleanup plainOptions desktop fresh)).
  vm_compute. reflexivity.
Defined.


Lemma multiplier_bounds_witness :
  let s := sampleDeclared (budgetOptions 100) desktop [] ∅ in
  let r' := resolution (mutResolution (sampleUpdate (budgetOptions 100) desktop noOpts s)) in
  1 # 10 <= r'
  /\ exists k : nat, (k <= 9)%nat /\ r' == 1 - inject_Z (Z.of_nat k) * (1 # 10).
Proof.
  refine (proj2 (proj2 (multiplier_bounds fillViewport centredX centredY webX webY
                          (budgetOptions 100) desktop noOpts
                          (sampleDeclared (budgetOptions 100) desktop [] ∅))) _).
  reflexivity.
Defined.

Lemma no_budget_keeps_multiplier_witness :
  mutResolution (sampleUpdate (budgetOptions 0) denseShort noOpts
                   (sampleDeclared (budgetOptions 0) desktop [] ∅))
  = {| resolution := 1; hasSet := false |}.
Proof.
  apply (no_budget_keeps_multiplier fillViewport centredX centredY webX webY
           (budgetOptions 0) denseShort noOpts
           (sampleDeclared (budgetOptions 0) desktop [] ∅)).
  right. exists 0. split; reflexivity.
Defined.

Lemma update_replaces_pointer_listeners_witness :
  (exists cl, pointerClosures sized = Some cl /\ closureId cl = nextClosure fresh)
  /\ prevDeviceSize sized = Some (size sized)
  /\ (forall l : Listener,
        l ∈ listeners sized
        <-> l ∈ pointerListeners fresh (nextClosure fresh)
            \/ (l ∈ listeners fresh /\ isPointerHandler (handler l) = false))
  /\ pointerListenersCurrent sized.
Proof.
  apply (update_replaces_pointer_listeners fillViewport centredX centredY webX webY
           plainOptions desktop noOpts fresh).
  - exact fresh_listeners_current.
  - reflexivity.
Defined.

Lemma sized_listeners_current : pointerListenersCurrent sized.
Proof.
  apply update_keeps_invariant. exact fresh_listeners_current.
Defined.

Lemma cleanup_detaches_pointer_listeners_witness :
  foreignListener ∈ listeners (sampleCleanup plainOptions desktop sized)
  /\ ~ {| target := DocumentT; eventType := "pointerdown"; handler := PointerDown 0 |}
        ∈ listeners (sampleCleanup plainOptions desktop sized).
Proof.
  pose proof (cleanup_detaches_pointer_listeners fillViewport centredX centredY
                webX webY plainOptions desktop sized sized_listeners_current)
    as H.
  assert (P : hasPrevDeviceSize sized = true) by (vm_compute; reflexivity).
  split.
  - apply (H P). split; [vm_compute; left|].
    repeat split; discriminate.
  - intros M. apply (H P) in M as (_ & M & _). discriminate M.
Defined.

Lemma cleanup_before_first_size_witness :
  let s' := sampleCleanup plainOptions desktop fresh in
  isCleanedUp s' = true
  /\ prevDeviceSize s' = Some (fillViewport 800 600 tt tt)
  /\ (forall l : Listener, l ∈ pointerListeners fresh 0 -> l ∈ listeners s').
Proof.
  apply (cleanup_before_first_size fillViewport centredX centredY webX webY
           plainOptions desktop fresh).
  - exact fresh_listeners_current.
  - reflexivity.
Defined.

Lemma pointer_listeners_never_leak_witness :
  exists (s : State) (stored : option string),
    sampleRender plainOptions desktop [foreignListener] ∅ = Started s stored
    /\ pointerListenersCurrent
         (sampleRun plainOptions
            [(denseShort, ResizeEvent); (denseShort, ScrollEvent);
             (desktop, ResolutionSet (1 # 2)); (desktop, CleanupCall)] s).
Proof.
  eexists _, _. split; [reflexivity|].
  apply (pointer_listeners_never_leak fillViewport centredX centredY webX webY
           parseSample printSample key plainOptions desktop [foreignListener] ∅ _ _
           [(denseShort, ResizeEvent); (denseShort, ScrollEvent);
            (desktop, ResolutionSet (1 # 2)); (desktop, CleanupCall)]
           eq_refl).
  intros l H. apply list_elem_of_singleton in H. subst l. reflexivity.
Defined.

Lemma override_survives_restart_witness :
  exists (s1 : State) (stored : option string),
    sampleRender (budgetOptions 100) denseShort []
      (storage (sampleSet (budgetOptions 100) desktop (1 # 2) fresh))
    = Started s1 stored
    /\ stored = Some "0.5"%string
    /\ mutResolution (sampleStep (budgetOptions 100) denseShort
                        (StoredResolution stored) s1)
       = {| resolution := 1 # 2; hasSet := true |}.
Proof.
  eexists _, _. split; [reflexivity|].
  apply (override_survives_restart fillViewport centredX centredY webX webY
           parseSample printSample key (budgetOptions 100) desktop (1 # 2) fresh
           denseShort [] _ _ [] denseShort eq_refl eq_refl).
Defined.

Lemma launch_waits_for_a_viewport_witness :
  exists (s : State) (stored : option string),
    sampleRender plainOptions unsized [] ∅ = Started s stored
    /\ calls s = [SetTimeoutLaunch]
    /\ prevDeviceSize s = None /\ pointerClosures s = None
    /\ mutResolution s = {| resolution := 1; hasSet := false |}.
Proof.
  eexists _, _. split; [reflexivity|].
  apply (launch_waits_for_a_viewport fillViewport centredX centredY webX webY key
           plainOptions unsized [] ∅ _ _ eq_refl).
  left. reflexivity.
Defined.


Lemma scroll_within_budget_keeps_size_witness :
  let s' := sampleStep plainOptions denseShort ScrollEvent sized in
  size s' = size sized
  /\ prevDeviceSize s' = Some (size sized)
  /\ mutResolution s' = mutResolution sized
  /\ (canvasWidth (canvas s'), canvasHeight (canvas s'))
     = canvasBuffer plainOptions denseShort (size sized)
         (resolution (mutResolution sized)).
Proof.
  apply (scroll_within_budget_keeps_size fillViewport centredX centredY webX webY
           parseSample printSample key plainOptions denseShort sized).
  - vm_compute. reflexivity.
  - vm_compute. reflexivity.
Defined.
